(** * Meta Sentiment Intelligence: payload normalizer, record filter,
      keyword extractor and chart aggregator of [streamlit_app.py]

    The development embeds the data path of the dashboard:

    - [parse_workflow_response] over a store of Python objects, because it
      updates the summary mapping in place and may hand the same object back
      twice;
    - [_filter_responses], [_get_review_text],
      [extract_keywords_from_reviews], the keyword block of the third tab,
      [_derive_source_breakdown] and the pie and source series of
      [build_all_charts] over JSON trees, because they only read the
      snapshot.

    [_truncate_label], [build_table] and [_validate_webhook_url] are
    embedded after them, over the same trees and strings.

    Text is modelled as [string] holding ASCII characters, the range on which
    [str.lower], [str.title], [str.strip] and the classes of the pattern
    [\b[a-z]{3,}\b] are tabulated below.  A character above code 127 is taken
    as caseless, not a space and not a word character. *)

From Stdlib Require Import ZArith String Ascii List Bool Floats DecimalString Lia.
From Stdlib Require Import Sorting.Sorted Sorting.Permutation.
From stdpp Require Import base list.
Import ListNotations.

#[local] Set Warnings "-register-all".

Open Scope string_scope.
Open Scope list_scope.
Open Scope bool_scope.
Open Scope Z_scope.

(** ** Text *)

Module Text.

Definition code (c : ascii) : nat := nat_of_ascii c.

Definition between (lo hi : nat) (c : ascii) : bool :=
  (lo <=? code c)%nat && (code c <=? hi)%nat.

Definition is_upper (c : ascii) : bool := between 65 90 c.
Definition is_az (c : ascii) : bool := between 97 122 c.
Definition is_digit (c : ascii) : bool := between 48 57 c.
Definition is_alpha (c : ascii) : bool := is_upper c || is_az c.

(** [\w] of the [re] module. *)
Definition is_word (c : ascii) : bool :=
  is_alpha c || is_digit c || (code c =? 95)%nat.

(** [str.isspace]: tab, line feed, vertical tab, form feed, carriage
    return, the four separators 28..31 and the space. *)
Definition is_space (c : ascii) : bool :=
  between 9 13 c || between 28 32 c.

Definition lower_char (c : ascii) : ascii :=
  if is_upper c then ascii_of_nat (code c + 32) else c.

Definition upper_char (c : ascii) : ascii :=
  if is_az c then ascii_of_nat (code c - 32) else c.

Fixpoint map_chars (f : ascii -> ascii) (s : string) : string :=
  match s with
  | EmptyString => EmptyString
  | String c r => String (f c) (map_chars f r)
  end.

(** [s.lower()] *)
Definition lower (s : string) : string := map_chars lower_char s.

(** [s.replace(old, new)] for one-character [old] and [new]. *)
Definition replace (old new : ascii) (s : string) : string :=
  map_chars (fun c => if Ascii.eqb c old then new else c) s.

(** [s.title()]: a cased character is upper-cased when the character
    before it is not cased, lower-cased otherwise. *)
Fixpoint title_from (prev_cased : bool) (s : string) : string :=
  match s with
  | EmptyString => EmptyString
  | String c r =>
      if is_alpha c
      then String (if prev_cased then lower_char c else upper_char c)
                  (title_from true r)
      else String c (title_from false r)
  end.

Definition title (s : string) : string := title_from false s.

Fixpoint lstrip (s : string) : string :=
  match s with
  | EmptyString => EmptyString
  | String c r => if is_space c then lstrip r else s
  end.

Fixpoint rstrip (s : string) : string :=
  match s with
  | EmptyString => EmptyString
  | String c r =>
      match rstrip r with
      | EmptyString => if is_space c then EmptyString else String c EmptyString
      | r' => String c r'
      end
  end.

(** [s.strip()] *)
Definition strip (s : string) : string := rstrip (lstrip s).

(** [sub in s] *)
Fixpoint contains (sub s : string) : bool :=
  String.prefix sub s ||
  match s with
  | EmptyString => false
  | String _ r => contains sub r
  end.

(** [sep.join(parts)] *)
Definition join (sep : string) (parts : list string) : string :=
  String.concat sep parts.

Definition is_empty (s : string) : bool :=
  match s with EmptyString => true | _ => false end.

Fixpoint all_chars (p : ascii -> bool) (s : string) : bool :=
  match s with
  | EmptyString => true
  | String c r => p c && all_chars p r
  end.

Definition first_char (s : string) : option ascii :=
  match s with EmptyString => None | String c _ => Some c end.

Fixpoint last_char (s : string) : option ascii :=
  match s with
  | EmptyString => None
  | String c EmptyString => Some c
  | String _ r => last_char r
  end.

End Text.

(** ** Python values and exceptions *)

(** The scalars of a decoded JSON document. *)
Inductive atom : Type :=
| ANone
| ABool (b : bool)
| AInt (n : Z)
| AFloat (x : float)
| AStr (s : string).

(** A JSON tree as [json.loads] returns it; a [dict] keeps its keys in
    insertion order. *)
Inductive value : Type :=
| Atom (a : atom)
| List (xs : list value)
| Dict (kvs : list (string * value)).

Inductive exn : Type :=
| TypeError
| AttributeError
| OverflowError
| ValueError.

Inductive result (A : Type) : Type :=
| Ok (a : A)
| Raise (e : exn).

Arguments Ok {A} a.
Arguments Raise {A} e.

Definition bind {A B : Type} (m : result A) (k : A -> result B) : result B :=
  match m with
  | Ok a => k a
  | Raise e => Raise e
  end.

Declare Scope res_scope.
Delimit Scope res_scope with res.
Notation "x <- m ;; k" := (bind m (fun x => k))
  (at level 100, m at next level, right associativity) : res_scope.

(** A list comprehension whose condition may raise. *)
Fixpoint filter_r {A : Type} (p : A -> result bool) (l : list A) : result (list A) :=
  match l with
  | [] => Ok []
  | x :: r =>
      (b <- p x ;;
       r' <- filter_r p r ;;
       Ok (if b then x :: r' else r'))%res
  end.

(** A comprehension or loop whose body may raise, results concatenated. *)
Fixpoint flat_map_r {A B : Type} (f : A -> result (list B)) (l : list A) : result (list B) :=
  match l with
  | [] => Ok []
  | x :: r =>
      (ys <- f x ;;
       zs <- flat_map_r f r ;;
       Ok (ys ++ zs))%res
  end.

(** ** Built-in operations *)

Module Py.

Import Text.

(** [d.get(k)] on the entries of a [dict]: the value, or nothing. *)
Fixpoint lookup (k : string) (kvs : list (string * value)) : option value :=
  match kvs with
  | [] => None
  | (k', v) :: r => if String.eqb k k' then Some v else lookup k r
  end.

(** [d.get(k, dflt)] *)
Definition get (kvs : list (string * value)) (k : string) (dflt : value) : value :=
  match lookup k kvs with
  | Some v => v
  | None => dflt
  end.

(** [bool(v)] *)
Definition truthy (v : value) : bool :=
  match v with
  | Atom ANone => false
  | Atom (ABool b) => b
  | Atom (AInt n) => negb (n =? 0)
  | Atom (AFloat x) => negb (PrimFloat.eqb x 0)
  | Atom (AStr s) => negb (is_empty s)
  | List xs => match xs with [] => false | _ => true end
  | Dict kvs => match kvs with [] => false | _ => true end
  end.

(** [a or b] *)
Definition or_else (a b : value) : value := if truthy a then a else b.

(** *** [repr] of a float: the shortest decimal that reads back as the
    same binary64 number, the nearest one when several have that length. *)

Definition dec (z : Z) : string := NilEmpty.string_of_int (Z.to_int z).

Fixpoint zeros (n : nat) : string :=
  match n with O => EmptyString | S k => String "0" (zeros k) end.

(** [num/den] against [d * 10^k]. *)
Definition cmp_scaled (num den d k : Z) : comparison :=
  if 0 <=? k then Z.compare num (d * 10 ^ k * den)
  else Z.compare (num * 10 ^ (- k)) (d * den).

(** The integer part of [(num/den) / 10^k]. *)
Definition floor_scaled (num den k : Z) : Z :=
  if 0 <=? k then num / (den * 10 ^ k) else (num * 10 ^ (- k)) / den.

(** The largest [k'] at or below [k] with [10^k' <= num/den]. *)
Fixpoint find_exp (fuel : nat) (k num den : Z) : Z :=
  match fuel with
  | O => k
  | S f => match cmp_scaled num den 1 k with
           | Lt => find_exp f (k - 1) num den
           | _ => k
           end
  end.

(** The reals that round to [m * 2^e], as fractions over [i_den]. *)
Record interval : Type :=
  { v_num : Z; lo_num : Z; hi_num : Z; i_den : Z; closed : bool }.

Definition float_interval (m : positive) (e : Z) : interval :=
  let m := Z.pos m in
  let below := if (m =? 2 ^ 52) && (-1074 <? e) then 1 else 2 in
  if 0 <=? e then
    {| v_num := 4 * m * 2 ^ e; lo_num := 4 * m * 2 ^ e - below * 2 ^ e;
       hi_num := 4 * m * 2 ^ e + 2 * 2 ^ e; i_den := 4; closed := Z.even m |}
  else
    {| v_num := 4 * m; lo_num := 4 * m - below; hi_num := 4 * m + 2;
       i_den := 4 * 2 ^ (- e); closed := Z.even m |}.

Definition inside (i : interval) (d k : Z) : bool :=
  match cmp_scaled (lo_num i) (i_den i) d k, cmp_scaled (hi_num i) (i_den i) d k with
  | Lt, Gt => true
  | Eq, Gt | Lt, Eq => closed i
  | _, _ => false
  end.

(** The [n]-digit decimal in the interval that is nearest to the number. *)
Definition candidate (i : interval) (top n : Z) : option (Z * Z) :=
  let k := top - (n - 1) in
  let d := floor_scaled (v_num i) (i_den i) k in
  match inside i d k, inside i (d + 1) k with
  | true, true =>
      match cmp_scaled (2 * v_num i) (i_den i) (2 * d + 1) k with
      | Lt => Some (d, k)
      | Gt => Some (d + 1, k)
      | Eq => Some (if Z.even d then d else d + 1, k)
      end
  | true, false => Some (d, k)
  | false, true => Some (d + 1, k)
  | false, false => None
  end.

Fixpoint shortest (fuel : nat) (i : interval) (top n : Z) : Z * Z :=
  match fuel with
  | O => (0, 0)
  | S f => match candidate i top n with
           | Some r => r
           | None => shortest f i top (n + 1)
           end
  end.

Fixpoint strip_zeros (fuel : nat) (d k : Z) : Z * Z :=
  match fuel with
  | O => (d, k)
  | S f => if (d mod 10 =? 0) && negb (d =? 0)
           then strip_zeros f (d / 10) (k + 1) else (d, k)
  end.

Definition repr_finite (m : positive) (e : Z) : string :=
  let i := float_interval m e in
  let top := find_exp 8 ((e + Z.log2 (Z.pos m) + 1) * 30103 / 100000 + 1)
                      (v_num i) (i_den i) in
  let '(d, k) := shortest 18 i top 1 in
  let '(d, k) := strip_zeros 18 d k in
  let ds := dec d in
  let nd := Z.of_nat (String.length ds) in
  let decpt := nd + k in
  if (decpt <=? -4) || (16 <? decpt) then
    let ex := decpt - 1 in
    let mant := match ds with
                | String c (String c' r) => String c (String "." (String c' r))
                | _ => ds
                end in
    let exs := if Z.abs ex <? 10 then String "0" (dec (Z.abs ex)) else dec (Z.abs ex) in
    let sg : string := if ex <? 0 then "-"%string else "+"%string in
    (mant ++ "e" ++ sg ++ exs)%string
  else if decpt <=? 0 then
    ("0." ++ zeros (Z.to_nat (- decpt)) ++ ds)%string
  else if nd <=? decpt then
    (ds ++ zeros (Z.to_nat (decpt - nd)) ++ ".0")%string
  else
    (substring 0 (Z.to_nat decpt) ds ++ "."
       ++ substring (Z.to_nat decpt) (Z.to_nat (nd - decpt)) ds)%string.

Definition repr_float (x : float) : string :=
  match Prim2SF x with
  | S754_nan => "nan"
  | S754_infinity s => if s then "-inf" else "inf"
  | S754_zero s => if s then "-0.0" else "0.0"
  | S754_finite s m e => ((if s then "-" else "") ++ repr_finite m e)%string
  end.

(** *** [repr] and [str] *)

Definition quote1 : ascii := "039".
Definition quote2 : ascii := "034".
Definition backslash : ascii := "092".

Fixpoint has_char (c : ascii) (s : string) : bool :=
  match s with
  | EmptyString => false
  | String c' r => Ascii.eqb c c' || has_char c r
  end.

Definition hex_digit (n : nat) : ascii :=
  if (n <? 10)%nat then ascii_of_nat (48 + n) else ascii_of_nat (87 + n).

Definition escape_char (q c : ascii) : string :=
  let plain := String c EmptyString in
  let esc (x : ascii) := String backslash (String x EmptyString) in
  if Ascii.eqb c backslash then esc backslash
  else if Ascii.eqb c q then esc q
  else if (code c =? 9)%nat then esc "t"%char
  else if (code c =? 10)%nat then esc "n"%char
  else if (code c =? 13)%nat then esc "r"%char
  else if (code c <? 32)%nat || (code c =? 127)%nat
  then String backslash
         (String "x"%char (String (hex_digit (code c / 16))
                        (String (hex_digit (code c mod 16)) EmptyString)))
  else plain.

Fixpoint escape (q : ascii) (s : string) : string :=
  match s with
  | EmptyString => EmptyString
  | String c r => (escape_char q c ++ escape q r)%string
  end.

(** [repr(s)]: single quotes, unless the text has a single quote and no
    double quote. *)
Definition repr_str (s : string) : string :=
  let q := if has_char quote1 s && negb (has_char quote2 s) then quote2 else quote1 in
  String q (escape q s ++ String q EmptyString)%string.

Definition repr_atom (a : atom) : string :=
  match a with
  | ANone => "None"
  | ABool b => if b then "True" else "False"
  | AInt n => dec n
  | AFloat x => repr_float x
  | AStr s => repr_str s
  end.

Fixpoint repr (v : value) : string :=
  match v with
  | Atom a => repr_atom a
  | List xs => ("[" ++ join ", " (map repr xs) ++ "]")%string
  | Dict kvs =>
      ("{" ++ join ", " (map (fun kv => (repr_str (fst kv) ++ ": " ++ repr (snd kv))%string) kvs)
           ++ "}")%string
  end.

(** [str(v)] *)
Definition str (v : value) : string :=
  match v with
  | Atom (AStr s) => s
  | _ => repr v
  end.

(** *** Iteration *)

Fixpoint chars (s : string) : list value :=
  match s with
  | EmptyString => []
  | String c r => Atom (AStr (String c EmptyString)) :: chars r
  end.

(** What [for x in v] visits: the elements of a list, the characters of a
    string, the keys of a dict; the other values are not iterable. *)
Definition iter (v : value) : result (list value) :=
  match v with
  | List xs => Ok xs
  | Atom (AStr s) => Ok (chars s)
  | Dict kvs => Ok (map (fun kv => Atom (AStr (fst kv))) kvs)
  | Atom _ => Raise TypeError
  end.

(** *** Numbers *)

Inductive num : Type :=
| NInt (n : Z)
| NFloat (x : float).

(** [bool] is a subclass of [int]. *)
Definition as_num (v : value) : option num :=
  match v with
  | Atom (ABool b) => Some (NInt (if b then 1 else 0))
  | Atom (AInt n) => Some (NInt n)
  | Atom (AFloat x) => Some (NFloat x)
  | _ => None
  end.

Definition of_num (n : num) : value :=
  match n with
  | NInt z => Atom (AInt z)
  | NFloat x => Atom (AFloat x)
  end.

(** [float(n)] for an int: nearest binary64, ties to even; too large
    raises. *)
Definition float_of_Z (n : Z) : result float :=
  match binary_normalize prec emax n 0 false with
  | S754_infinity _ => Raise OverflowError
  | sf => Ok (SF2Prim sf)
  end.

Definition add_num (a b : num) : result num :=
  match a, b with
  | NInt x, NInt y => Ok (NInt (x + y))
  | NInt x, NFloat y => (x' <- float_of_Z x ;; Ok (NFloat (PrimFloat.add x' y)))%res
  | NFloat x, NInt y => (y' <- float_of_Z y ;; Ok (NFloat (PrimFloat.add x y')))%res
  | NFloat x, NFloat y => Ok (NFloat (PrimFloat.add x y))
  end.

(** [a + b]: numbers add, two strings or two lists concatenate, anything
    else raises. *)
Definition add (a b : value) : result value :=
  match as_num a, as_num b with
  | Some x, Some y => (z <- add_num x y ;; Ok (of_num z))%res
  | _, _ =>
      match a, b with
      | Atom (AStr s), Atom (AStr t) => Ok (Atom (AStr (s ++ t)))
      | List xs, List ys => Ok (List (xs ++ ys))
      | _, _ => Raise TypeError
      end
  end.

(** [v == 0] *)
Definition eq_zero (v : value) : bool :=
  match as_num v with
  | Some (NInt n) => n =? 0
  | Some (NFloat x) => PrimFloat.eqb x 0
  | None => false
  end.

(** [int(v)] for a number: a float is cut towards zero. *)
Definition int_of_num (n : num) : result Z :=
  match n with
  | NInt z => Ok z
  | NFloat x =>
      match Prim2SF x with
      | S754_nan => Raise ValueError
      | S754_infinity _ => Raise OverflowError
      | S754_zero _ => Ok 0
      | S754_finite s m e =>
          let a := if 0 <=? e then Z.pos m * 2 ^ e else Z.pos m / 2 ^ (- e) in
          Ok (if s then - a else a)
      end
  end.

End Py.

(** ** The object store

    A [dict] or a [list] is an object with an identity: two names may refer
    to the same one, and an update through either is seen through both. *)

Module Store.

Abbreviation loc := nat (only parsing).

Inductive val : Type :=
| VAtom (a : atom)
| VRef (l : loc).

Inductive obj : Type :=
| ODict (kvs : list (string * val))
| OList (xs : list val).

Abbreviation heap := (list obj) (only parsing).

(** Statements run against the store and either raise or finish with a
    result and the store they leave. *)
Definition M (A : Type) : Type := heap -> result (A * heap).

Definition ret {A : Type} (a : A) : M A := fun h => Ok (a, h).

Definition raise {A : Type} (e : exn) : M A := fun _ => Raise e.

Definition bindM {A B : Type} (m : M A) (k : A -> M B) : M B :=
  fun h =>
    match m h with
    | Ok (a, h') => k a h'
    | Raise e => Raise e
    end.

Declare Scope st_scope.
Delimit Scope st_scope with st.
Notation "x <- m ;; k" := (bindM m (fun x => k))
  (at level 100, m at next level, right associativity) : st_scope.
Notation "m ;;; k" := (bindM m (fun _ => k))
  (at level 100, right associativity) : st_scope.

(** A display [{}], [[]] or [[x]]: a new object. *)
Definition alloc (o : obj) : M val :=
  fun h => Ok (VRef (length h), h ++ [o]).

Definition deref (h : heap) (v : val) : option obj :=
  match v with
  | VAtom _ => None
  | VRef l => h !! l
  end.

(** [isinstance(v, dict)] *)
Definition is_dict (h : heap) (v : val) : bool :=
  match deref h v with Some (ODict _) => true | _ => false end.

(** [isinstance(v, list)] *)
Definition is_list (h : heap) (v : val) : bool :=
  match deref h v with Some (OList _) => true | _ => false end.

Definition isinstance_dict (v : val) : M bool := fun h => Ok (is_dict h v, h).
Definition isinstance_list (v : val) : M bool := fun h => Ok (is_list h v, h).

(** The value under a key of a dict, if the key is there. *)
Fixpoint entry (k : string) (kvs : list (string * val)) : option val :=
  match kvs with
  | [] => None
  | (k', v) :: r => if String.eqb k k' then Some v else entry k r
  end.

Definition has_key (k : string) (kvs : list (string * val)) : bool :=
  match entry k kvs with Some _ => true | None => false end.

Definition get_or (o : option val) (dflt : val) : val :=
  match o with Some v => v | None => dflt end.

(** The entries of the dict [d] refers to; the callers below have checked
    [isinstance(d, dict)]. *)
Definition entries (d : val) : M (list (string * val)) :=
  fun h =>
    match deref h d with
    | Some (ODict kvs) => Ok (kvs, h)
    | _ => Raise AttributeError
    end.

(** [d.get(k, dflt)] *)
Definition dict_get (d : val) (k : string) (dflt : val) : M val :=
  (kvs <- entries d ;;
   ret (get_or (entry k kvs) dflt))%st.

(** [k in d] *)
Definition dict_contains (d : val) (k : string) : M bool :=
  (kvs <- entries d ;;
   ret (has_key k kvs))%st.

(** [d.setdefault(k, v)]: a key that is present keeps its value, an absent
    one is added after the others. *)
Definition setdefault (d : val) (k : string) (v : val) : M unit :=
  fun h =>
    match d with
    | VRef l =>
        match h !! l with
        | Some (ODict kvs) =>
            match entry k kvs with
            | Some _ => Ok (tt, h)
            | None => Ok (tt, <[l := ODict (kvs ++ [(k, v)])]> h)
            end
        | _ => Raise AttributeError
        end
    | VAtom _ => Raise AttributeError
    end.

(** [len(v)] *)
Definition len (v : val) : M Z :=
  fun h =>
    match v with
    | VAtom (AStr s) => Ok (Z.of_nat (String.length s), h)
    | VAtom _ => Raise TypeError
    | VRef l =>
        match h !! l with
        | Some (ODict kvs) => Ok (Z.of_nat (length kvs), h)
        | Some (OList xs) => Ok (Z.of_nat (length xs), h)
        | None => Raise TypeError
        end
    end.

(** [isinstance(v, list) and v], as a condition. *)
Definition nonempty_list (h : heap) (v : val) : option (val * list val) :=
  match deref h v with
  | Some (OList (x :: xs)) => Some (x, xs)
  | _ => None
  end.

(** Lines 107-109. *)
Definition from_object (data : val) (sr : val * val) : M (val * val) :=
  (is_d <- isinstance_dict data ;;
   if is_d : bool then
     d1 <- alloc (ODict []) ;;
     sentiment <- dict_get data "sentiment" d1 ;;
     d2 <- alloc (OList []) ;;
     responses <- dict_get data "responses" d2 ;;
     ret (sentiment, responses)
   else ret sr)%st.

(** Lines 110-114. *)
Definition from_sequence (data : val) (sr : val * val) : M (val * val) :=
  fun h =>
    match nonempty_list h data with
    | Some (first, _) =>
        (is_d1 <- isinstance_dict first ;;
         if is_d1 : bool then
           sentiment <- dict_get first "sentiment" first ;;
           has_h <- dict_contains first "headline" ;;
           has_p <- dict_contains first "personalized_response" ;;
           dflt <- alloc (OList (if has_h || has_p then [first] else [])) ;;
           responses <- dict_get first "responses" dflt ;;
           ret (sentiment, responses)
         else ret sr)%st h
    | None => ret sr h
    end.

(** Lines 105-114: the two candidates, before any default is set. *)
Definition select (data : val) : M (val * val) :=
  (sentiment <- alloc (ODict []) ;;
   responses <- alloc (OList []) ;;
   sr <- from_object data (sentiment, responses) ;;
   from_sequence data sr)%st.

(** Lines 115-126. *)
Definition fill_defaults (sentiment responses : val) : M unit :=
  (is_s <- isinstance_dict sentiment ;;
   if is_s : bool then
     n <- len responses ;;
     setdefault sentiment "totalItems" (VAtom (AInt n)) ;;;
     setdefault sentiment "positiveCount" (VAtom (AInt 0)) ;;;
     setdefault sentiment "neutralCount" (VAtom (AInt 0)) ;;;
     setdefault sentiment "negativeCount" (VAtom (AInt 0)) ;;;
     setdefault sentiment "positivePercent" (VAtom (AInt 0)) ;;;
     setdefault sentiment "neutralPercent" (VAtom (AInt 0)) ;;;
     setdefault sentiment "negativePercent" (VAtom (AInt 0)) ;;;
     setdefault sentiment "avgScore" (VAtom (AFloat 0)) ;;;
     e1 <- alloc (ODict []) ;;
     setdefault sentiment "topThemes" e1 ;;;
     e2 <- alloc (ODict []) ;;
     setdefault sentiment "topConcerns" e2 ;;;
     e3 <- alloc (ODict []) ;;
     setdefault sentiment "sourceBreakdown" e3
   else ret tt)%st.

(** Lines 127-128. *)
Definition as_list (responses : val) : M val :=
  (is_l <- isinstance_list responses ;;
   if is_l : bool then ret responses
   else
     is_rd <- isinstance_dict responses ;;
     alloc (OList (if is_rd : bool then [responses] else [])))%st.

(** Lines 104-129. *)
Definition parse_workflow_response (data : val) : M (val * val) :=
  (sr <- select data ;;
   fill_defaults (fst sr) (snd sr) ;;;
   responses <- as_list (snd sr) ;;
   ret (fst sr, responses))%st.

(** *** Between trees and the store *)

(** The objects of a decoded document: every container is a new object. *)
Fixpoint load (v : value) (h : heap) : val * heap :=
  match v with
  | Atom a => (VAtom a, h)
  | List xs =>
      let '(vs, h1) :=
        (fix go (xs : list value) (h : heap) : list val * heap :=
           match xs with
           | [] => ([], h)
           | x :: r =>
               let '(x', h1) := load x h in
               let '(r', h2) := go r h1 in
               (x' :: r', h2)
           end) xs h in
      (VRef (length h1), h1 ++ [OList vs])
  | Dict kvs =>
      let '(es, h1) :=
        (fix go (kvs : list (string * value)) (h : heap) : list (string * val) * heap :=
           match kvs with
           | [] => ([], h)
           | kv :: r =>
               let '(x', h1) := load (snd kv) h in
               let '(r', h2) := go r h1 in
               ((fst kv, x') :: r', h2)
           end) kvs h in
      (VRef (length h1), h1 ++ [ODict es])
  end.

(** The tree a value of the store stands for, read to the given depth. *)
Fixpoint reify (depth : nat) (h : heap) (v : val) : option value :=
  match v with
  | VAtom a => Some (Atom a)
  | VRef l =>
      match depth with
      | O => None
      | S d =>
          match h !! l with
          | Some (OList xs) =>
              option_map List
                (fold_right (fun x acc =>
                               match reify d h x, acc with
                               | Some x', Some r => Some (x' :: r)
                               | _, _ => None
                               end) (Some []) xs)
          | Some (ODict kvs) =>
              option_map Dict
                (fold_right (fun kv acc =>
                               match reify d h (snd kv), acc with
                               | Some x', Some r => Some ((fst kv, x') :: r)
                               | _, _ => None
                               end) (Some []) kvs)
          | None => None
          end
      end
  end.

(** [normalize] on a decoded document: the trees of the summary and of the
    record sequence that the call returns. *)
Definition normalize (depth : nat) (payload : value) : result (option (value * value)) :=
  let '(data, h) := load payload [] in
  match parse_workflow_response data h with
  | Ok ((s, r), h') =>
      Ok (match reify depth h' s, reify depth h' r with
          | Some s', Some r' => Some (s', r')
          | _, _ => None
          end)
  | Raise e => Raise e
  end.

(** *** What the summary holds after the call *)

(** [d.setdefault(k, v)] on the entries. *)
Definition add_default (k : string) (v : val) (kvs : list (string * val))
    : list (string * val) :=
  match entry k kvs with
  | Some _ => kvs
  | None => kvs ++ [(k, v)]
  end.

(** The eleven defaults in the order of lines 116-126; [base] is where the
    first of the three new mappings is stored. *)
Definition filled (n : Z) (base : nat) (kvs : list (string * val)) : list (string * val) :=
  add_default "sourceBreakdown" (VRef (base + 2)%nat)
    (add_default "topConcerns" (VRef (base + 1)%nat)
       (add_default "topThemes" (VRef base)
          (add_default "avgScore" (VAtom (AFloat 0))
             (add_default "negativePercent" (VAtom (AInt 0))
                (add_default "neutralPercent" (VAtom (AInt 0))
                   (add_default "positivePercent" (VAtom (AInt 0))
                      (add_default "negativeCount" (VAtom (AInt 0))
                         (add_default "neutralCount" (VAtom (AInt 0))
                            (add_default "positiveCount" (VAtom (AInt 0))
                               (add_default "totalItems" (VAtom (AInt n)) kvs)))))))))).

(** [len(r)] does not raise. *)
Definition sized (h : heap) (r : val) : bool :=
  match len r h with Ok _ => true | Raise _ => false end.

Definition COUNT_FIELDS : list string :=
  ["positiveCount"; "neutralCount"; "negativeCount";
   "positivePercent"; "neutralPercent"; "negativePercent"].

Definition MAPPING_FIELDS : list string := ["topThemes"; "topConcerns"; "sourceBreakdown"].

Definition SUMMARY_FIELDS : list string :=
  "totalItems" :: COUNT_FIELDS ++ "avgScore" :: MAPPING_FIELDS.

(** The summary [after] is the summary [before] with its absent fields
    filled: [total] for [totalItems], 0 for the counts and percents, 0.0
    for [avgScore], a new empty mapping of the store [h'] for each of the
    three mappings, and nothing else. *)
Definition defaults_filled (total : Z) (h' : heap)
    (before after : list (string * val)) : Prop :=
  (forall k v, entry k before = Some v -> entry k after = Some v) /\
  (entry "totalItems" before = None ->
   entry "totalItems" after = Some (VAtom (AInt total))) /\
  (forall k, In k COUNT_FIELDS -> entry k before = None ->
             entry k after = Some (VAtom (AInt 0))) /\
  (entry "avgScore" before = None -> entry "avgScore" after = Some (VAtom (AFloat 0))) /\
  (forall k, In k MAPPING_FIELDS -> entry k before = None ->
             exists l, entry k after = Some (VRef l) /\ h' !! l = Some (ODict [])) /\
  (forall k, ~ In k SUMMARY_FIELDS -> entry k before = None -> entry k after = None).

End Store.

(** ** The derived views

    They read the snapshot and never write to it, so they are functions of
    the trees that [Store.reify] reads off the store. *)

Import Text Py.

(** Lines 44-51. *)
Definition STOPWORDS : list string :=
  [ "a"; "an"; "the"; "and"; "or"; "but"; "in"; "on"; "at"; "to"; "for"; "of"; "with";
    "by"; "from"; "as"; "is"; "was"; "are"; "were"; "been"; "be"; "have"; "has"; "had";
    "do"; "does"; "did"; "will"; "would"; "could"; "should"; "may"; "might"; "must";
    "can"; "this"; "that"; "these"; "those"; "i"; "you"; "he"; "she"; "it"; "we"; "they";
    "my"; "your"; "his"; "her"; "its"; "our"; "their"; "me"; "him"; "us"; "them";
    "so"; "if"; "than"; "when"; "while"; "where"; "because"; "just"; "very"; "also" ].

(** [x in l] for a list of strings. *)
Definition mem (x : string) (l : list string) : bool := existsb (String.eqb x) l.

Definition is_nil {A : Type} (l : list A) : bool :=
  match l with [] => true | _ => false end.

(** A filter argument that is [None], empty or blank is no filter:
    [if f and f.strip()]. *)
Definition provided (f : option string) : option string :=
  match f with
  | Some s => if negb (is_empty s) && negb (is_empty (strip s)) then Some s else None
  | None => None
  end.

(** [r.get(key)]: [None] when the key is absent. *)
Definition field (kvs : list (string * value)) (key : string) : value :=
  get kvs key (Atom ANone).

(** The condition of the comprehension of line 138. *)
Definition keep_sentiment (sent : string) (r : value) : bool :=
  match r with
  | Dict kvs => String.eqb (lower (str (get kvs "ai_sentiment" (Atom (AStr ""))))) sent
  | _ => false
  end.

(** The condition of the comprehension of line 141. *)
Definition keep_theme (theme_key : string) (r : value) : result bool :=
  match r with
  | Dict kvs =>
      (ts <- iter (or_else (field kvs "ai_themes") (List [])) ;;
       Ok (mem theme_key (map (fun t => lower (str t)) ts)))%res
  | _ => Ok false
  end.

(** Lines 132-142. *)
Definition _filter_responses (responses : list value)
    (sentiment_filter theme_filter : option string) : result (list value) :=
  if is_nil responses then Ok []
  else
    let filtered := responses in
    let filtered :=
      match provided sentiment_filter with
      | Some s => List.filter (fun r => keep_sentiment (lower (strip s)) r) filtered
      | None => filtered
      end in
    match provided theme_filter with
    | Some t => filter_r (keep_theme (lower (strip t))) filtered
    | None => Ok filtered
    end.

(** One turn of the loop of lines 147-152. *)
Definition review_part (val : value) : list string :=
  match val with
  | Atom (AStr s) => if negb (is_empty (strip s)) then [s] else []
  | List xs => map str (List.filter truthy xs)
  | _ => []
  end.

(** Lines 145-153. *)
Definition _get_review_text (r : list (string * value)) : string :=
  join " " (flat_map (fun key => review_part (field r key))
              ["summary"; "content_clean"; "headline"; "full_title"; "personalized_response"]).

(** *** The pattern [\b[a-z]{3,}\b] *)

Module Pattern.

Definition word (c : option ascii) : bool :=
  match c with Some c => is_word c | None => false end.

(** [\b] between two neighbours; the ends of the text count as non-word. *)
Definition boundary (before after : option ascii) : bool :=
  xorb (word before) (word after).

(** The length of the longest prefix in [[a-z]]. *)
Fixpoint run_length (s : string) : nat :=
  match s with
  | String c r => if is_az c then S (run_length r) else O
  | EmptyString => O
  end.

(** [[a-z]{3,}\b] tried from the longest run down. *)
Fixpoint try_len (s : string) (j : nat) : option string :=
  match j with
  | O => None
  | S j' =>
      if (3 <=? j)%nat && boundary (String.get j' s) (String.get j s)
      then Some (substring 0 j s)
      else try_len s j'
  end.

(** A match that starts at the head of [s], [before] being the character
    in front of it. *)
Definition match_here (before : option ascii) (s : string) : option string :=
  if boundary before (first_char s) then try_len s (run_length s) else None.

(** The matches from left to right, without overlap; [skip] characters
    belong to the match just found. *)
Fixpoint scan (skip : nat) (before : option ascii) (s : string) : list string :=
  match s with
  | EmptyString => []
  | String c r =>
      match skip with
      | S k => scan k (Some c) r
      | O =>
          match match_here before s with
          | Some tok => tok :: scan (String.length tok - 1) (Some c) r
          | None => scan 0 (Some c) r
          end
      end
  end.

(** [re.findall(r"\b[a-z]{3,}\b", text)] *)
Definition findall (text : string) : list string := scan 0 None text.

End Pattern.

(** *** Counting *)

(** [counts[k] = counts.get(k, 0) + 1] on a dict in insertion order. *)
Fixpoint incr (k : string) (counts : list (string * Z)) : list (string * Z) :=
  match counts with
  | [] => [(k, 1%Z)]
  | (k', n) :: r => if String.eqb k k' then (k', (n + 1)%Z) :: r else (k', n) :: incr k r
  end.

(** [Counter(words)] *)
Definition Counter (words : list string) : list (string * Z) :=
  fold_left (fun c w => incr w c) words [].

Fixpoint insert_desc (x : string * Z) (l : list (string * Z)) : list (string * Z) :=
  match l with
  | [] => [x]
  | y :: r => if (snd y <=? snd x)%Z then x :: l else y :: insert_desc x r
  end.

(** [sorted(items, key=lambda x: -x[1])]: by falling count, entries with the
    same count in the order they had. *)
Definition sort_desc (items : list (string * Z)) : list (string * Z) :=
  fold_right insert_desc [] items.

(** [c.most_common(n)] *)
Definition most_common (n : Z) (c : list (string * Z)) : list (string * Z) :=
  if (n <=? 0)%Z then [] else take (Z.to_nat n) (sort_desc c).

(** The words one element of [responses] adds, lines 159-165. *)
Definition words_of (r : value) : list string :=
  match r with
  | Dict kvs =>
      let text := _get_review_text kvs in
      if is_empty text then []
      else List.filter (fun t => negb (mem t STOPWORDS)) (Pattern.findall (lower text))
  | _ => []
  end.

(** Lines 156-166. *)
Definition extract_keywords_from_reviews (responses : list value) (top_n : Z)
    : list (string * Z) :=
  most_common top_n (Counter (flat_map words_of responses)).

(** [str(t).replace("_", " ").title()] *)
Definition label_key (t : value) : string := title (replace "_" " " (str t)).

(** One of the two inner loops of lines 436-443. *)
Definition tally_labels (labels : value) (counts : list (string * Z))
    : result (list (string * Z)) :=
  (ts <- iter labels ;;
   Ok (fold_left (fun c t => if truthy t then incr (label_key t) c else c) ts counts))%res.

(** Lines 433-443. *)
Fixpoint theme_counts (filtered : list value) (counts : list (string * Z))
    : result (list (string * Z)) :=
  match filtered with
  | [] => Ok counts
  | Dict kvs :: rest =>
      (c1 <- tally_labels (or_else (field kvs "ai_themes") (List [])) counts ;;
       c2 <- tally_labels (or_else (field kvs "ai_concerns") (List [])) c1 ;;
       theme_counts rest c2)%res
  | _ :: rest => theme_counts rest counts
  end.

(** The keyword block of the third tab, lines 430-444, from the filtered
    records and the slider's value. *)
Definition keywords_or_fallback (filtered : list value) (top_kw : Z)
    : result (list (string * Z)) :=
  let n := Z.max 10 (Z.min 50 top_kw) in
  let keywords := extract_keywords_from_reviews filtered n in
  if is_nil keywords
  then (counts <- theme_counts filtered [] ;; Ok (take (Z.to_nat n) (sort_desc counts)))%res
  else Ok keywords.

(** *** Charts *)

(** Lines 201-209. *)
Definition source_name_of_record (kvs : list (string * value)) : string :=
  let src := or_else (or_else (field kvs "feed_type") (field kvs "source"))
                     (Atom (AStr "Other")) in
  if contains "amazon" (lower (str src)) then "Amazon Reviews" else "Google News".

Definition _derive_source_breakdown (responses : list value) : list (string * Z) :=
  fold_left (fun counts r =>
               match r with
               | Dict kvs => incr (source_name_of_record kvs) counts
               | _ => counts
               end) responses [].

(** Lines 222-226: the values of the pie. *)
Definition sentiment_split (sentiment : value) : result (value * value * value) :=
  match sentiment with
  | Dict kvs =>
      let pos := get kvs "positiveCount" (Atom (AInt 0)) in
      let neu := get kvs "neutralCount" (Atom (AInt 0)) in
      let neg := get kvs "negativeCount" (Atom (AInt 0)) in
      (s1 <- add pos neu ;;
       s2 <- add s1 neg ;;
       Ok (if eq_zero s2
           then (Atom (AInt 1), Atom (AInt 1), Atom (AInt 1))
           else (pos, neu, neg)))%res
  | _ => Raise AttributeError
  end.

(** [source_breakdown] is a list of pairs once line 235 or line 237 has run,
    and whatever the summary held otherwise. *)
Inductive breakdown : Type :=
| Pairs (items : list (value * value))
| Other (v : value).

Definition breakdown_truthy (b : breakdown) : bool :=
  match b with
  | Pairs items => negb (is_nil items)
  | Other v => truthy v
  end.

(** The items that pass the test of line 267. *)
Definition breakdown_items (b : breakdown) : result (list (value * value)) :=
  match b with
  | Pairs items => Ok items
  | Other v =>
      (xs <- iter v ;;
       Ok (flat_map (fun x => match x with
                              | List (s :: st :: _) => [(s, st)]
                              | _ => []
                              end) xs))%res
  end.

(** Lines 269-271. *)
Definition source_label (src : value) : string :=
  let s := lower (str src) in
  let name := if contains "amazon" s then "Amazon Reviews"
              else title (replace "_" " " (str src)) in
  if contains "google" s || contains "rss" s || contains "news" s then "Google News"
  else name.

(** Lines 273-278. *)
Definition source_value (stats : value) : result value :=
  match stats with
  | Dict st =>
      (s1 <- add (get st "positive" (Atom (AInt 0))) (get st "neutral" (Atom (AInt 0))) ;;
       s2 <- add s1 (get st "negative" (Atom (AInt 0))) ;;
       Ok (get st "total" s2))%res
  | _ =>
      match as_num stats with
      | Some n => (z <- int_of_num n ;; Ok (Atom (AInt z)))%res
      | None => Ok (Atom (AInt 1))
      end
  end.

Fixpoint source_bars (items : list (value * value)) : result (list (string * value)) :=
  match items with
  | [] => Ok []
  | (src, stats) :: rest =>
      (v <- source_value stats ;;
       bars <- source_bars rest ;;
       Ok ((source_label src, v) :: bars))%res
  end.

(** Lines 229, 234-237 and 264-279: the bars of the source chart, none when
    no trace is added. *)
Definition source_series (sentiment : value) (responses : list value)
    : result (list (string * value)) :=
  match sentiment with
  | Dict kvs =>
      let source_breakdown :=
        match get kvs "sourceBreakdown" (Dict []) with
        | Dict sb => Pairs (take 5 (map (fun kv => (Atom (AStr (fst kv)), snd kv)) sb))
        | v => Other v
        end in
      let source_breakdown :=
        if negb (breakdown_truthy source_breakdown) && negb (is_nil responses)
        then Pairs (map (fun kv => (Atom (AStr (fst kv)), Atom (AInt (snd kv))))
                      (_derive_source_breakdown responses))
        else source_breakdown in
      if breakdown_truthy source_breakdown
      then (items <- breakdown_items source_breakdown ;; source_bars items)%res
      else Ok []
  | _ => Raise AttributeError
  end.

(** The two series of [build_all_charts] that the statements below read.
    The theme and concern bars (lines 227-233 and 252-263) and the layout
    calls are not part of the model. *)
Record charts : Type :=
  { sentimentSplit : value * value * value;
    bySource : list (string * value) }.

Definition build_all_charts (sentiment : value) (responses : list value) : result charts :=
  (split <- sentiment_split sentiment ;;
   bars <- source_series sentiment responses ;;
   Ok {| sentimentSplit := split; bySource := bars |})%res.

(** ** Statements: the words of the specification

    The definitions below say what the specification says; the theorems
    compare them with the code above. *)

(** A filter argument that is absent, empty or made of spaces. *)
Definition is_blank (f : option string) : bool :=
  match f with
  | None => true
  | Some s => all_chars is_space s
  end.

(** A filter value as it is compared: trimmed and lower-cased. *)
Definition canon (f : string) : string := lower (strip f).

(** The canonical sentiment label of a record. *)
Definition sentiment_label (kvs : list (string * value)) : string :=
  lower (str (get kvs "ai_sentiment" (Atom (AStr "")))).

(** The elements a loop over [v] visits, none when [v] cannot be iterated. *)
Definition items (v : value) : list value :=
  match iter v with Ok xs => xs | Raise _ => [] end.

Definition iterable (v : value) : bool :=
  match iter v with Ok _ => true | Raise _ => false end.

(** The theme tokens of a record, lower-cased. *)
Definition theme_tokens (kvs : list (string * value)) : list string :=
  map (fun t => lower (str t)) (items (or_else (field kvs "ai_themes") (List []))).

(** The theme field of a record is a sequence (or absent, or empty). *)
Definition themes_iterable (r : value) : bool :=
  match r with
  | Dict kvs => iterable (or_else (field kvs "ai_themes") (List []))
  | _ => true
  end.

Definition has_sentiment (label : string) (r : value) : bool :=
  match r with
  | Dict kvs => String.eqb (sentiment_label kvs) label
  | _ => false
  end.

Definition has_theme (key : string) (r : value) : bool :=
  match r with
  | Dict kvs => mem key (theme_tokens kvs)
  | _ => false
  end.

Definition alphabetic (c : option ascii) : bool :=
  match c with Some c => is_alpha c | None => false end.

(** [kw] stands in [text] as a run of at least three letters of [[a-z]]
    with no letter right before it and none right after it. *)
Definition token_of (text kw : string) : Prop :=
  exists pre post,
    text = (pre ++ kw ++ post)%string /\
    alphabetic (last_char pre) = false /\
    alphabetic (first_char post) = false /\
    all_chars is_az kw = true /\
    (3 <= String.length kw)%nat.

(** The last character of [p], or the one before [p] when [p] is empty. *)
Definition last_or (before : option ascii) (p : string) : option ascii :=
  match last_char p with Some c => Some c | None => before end.

(** The labels of one field, title-cased with underscores turned to
    spaces; empty labels do not count. *)
Definition labels_in (v : value) : list string :=
  map label_key (List.filter truthy (items v)).

(** The theme labels, then the concern labels, of a record. *)
Definition labels_of (r : value) : list string :=
  match r with
  | Dict kvs =>
      labels_in (or_else (field kvs "ai_themes") (List []))
        ++ labels_in (or_else (field kvs "ai_concerns") (List []))
  | _ => []
  end.

Definition all_labels (records : list value) : list string := flat_map labels_of records.

(** The theme and concern fields of a record are sequences (or absent). *)
Definition labels_iterable (r : value) : bool :=
  match r with
  | Dict kvs =>
      iterable (or_else (field kvs "ai_themes") (List []))
      && iterable (or_else (field kvs "ai_concerns") (List []))
  | _ => true
  end.

Definition occurrences (k : string) (l : list string) : Z :=
  Z.of_nat (count_occ string_dec l k).

(** The labels without repeats, in the order of their first occurrence. *)
Definition distinct (l : list string) : list string :=
  fold_left (fun acc w => if mem w acc then acc else acc ++ [w]) l [].

(** Every label with the number of times it occurs. *)
Definition tally (labels : list string) : list (string * Z) :=
  map (fun k => (k, occurrences k labels)) (distinct labels).

(** Ranked by falling count. *)
Definition falling (a b : string * Z) : Prop := (snd b <= snd a)%Z.

(** The count a summary holds under a key, an absent key read as 0. *)
Definition has_count (kvs : list (string * value)) (k : string) (c : Z) : Prop :=
  match lookup k kvs with
  | Some v => v = Atom (AInt c)
  | None => c = 0
  end.

(** The summary of a payload that names no field, for [n] records. *)
Definition default_summary (n : Z) : list (string * value) :=
  [ ("totalItems", Atom (AInt n));
    ("positiveCount", Atom (AInt 0)); ("neutralCount", Atom (AInt 0));
    ("negativeCount", Atom (AInt 0)); ("positivePercent", Atom (AInt 0));
    ("neutralPercent", Atom (AInt 0)); ("negativePercent", Atom (AInt 0));
    ("avgScore", Atom (AFloat 0)); ("topThemes", Dict []);
    ("topConcerns", Dict []); ("sourceBreakdown", Dict []) ].

(** *** Stores and records used as examples *)

Definition great_glasses : value :=
  Dict [("headline", Atom (AStr "Great glasses"));
        ("ai_sentiment", Atom (AStr "Positive"));
        ("ai_themes", List [Atom (AStr "camera_quality")])].

Definition battery_complaint : value :=
  Dict [("headline", Atom (AStr "Battery dies fast"));
        ("ai_sentiment", Atom (AStr "negative"));
        ("ai_themes", List [Atom (AStr "battery_life"); Atom (AStr "Camera_Quality")])].

Definition labelled_only : value :=
  Dict [("ai_themes", List [Atom (AStr "camera_quality"); Atom (AStr "design")]);
        ("ai_concerns", List [Atom (AStr "design")])].

(** The payload [{"sentiment": {}, "responses": [5]}] in the store. *)
Definition object_store : list Store.obj :=
  [ Store.ODict []; Store.OList [Store.VAtom (AInt 5)];
    Store.ODict [("sentiment", Store.VRef 0); ("responses", Store.VRef 1)] ].

(** The payload [{"sentiment": {}}] in the store. *)
Definition nested_store : list Store.obj :=
  [ Store.ODict []; Store.ODict [("sentiment", Store.VRef 0)] ].

(** [nested_store] after the call. *)
Definition nested_store_after : list Store.obj :=
  [ Store.ODict
      [ ("totalItems", Store.VAtom (AInt 0));
        ("positiveCount", Store.VAtom (AInt 0)); ("neutralCount", Store.VAtom (AInt 0));
        ("negativeCount", Store.VAtom (AInt 0)); ("positivePercent", Store.VAtom (AInt 0));
        ("neutralPercent", Store.VAtom (AInt 0)); ("negativePercent", Store.VAtom (AInt 0));
        ("avgScore", Store.VAtom (AFloat 0)); ("topThemes", Store.VRef 6);
        ("topConcerns", Store.VRef 7); ("sourceBreakdown", Store.VRef 8) ];
    Store.ODict [("sentiment", Store.VRef 0)];
    Store.ODict []; Store.OList []; Store.ODict []; Store.OList [];
    Store.ODict []; Store.ODict []; Store.ODict [] ].

(** The payload [[{"headline": "Great glasses"}]] in the store. *)
Definition review_store : list Store.obj :=
  [ Store.ODict [("headline", Store.VAtom (AStr "Great glasses"))];
    Store.OList [Store.VRef 0] ].

(** ** More of the program

    The label shortener of the charts, the table of the review tab and the
    check of the webhook address, with the notions the statements about them
    and about the functions above use. *)

(** *** Slices and pieces of text *)

(** [s[:k]]: a negative [k] counts from the end. *)
Definition slice_to (k : Z) (s : string) : string :=
  substring 0 (Z.to_nat (if 0 <=? k then k else Z.of_nat (String.length s) + k)) s.

(** [l[:k]] of a list: a negative [k] counts from the end. *)
Definition list_slice_to {A : Type} (k : Z) (l : list A) : list A :=
  take (Z.to_nat (if 0 <=? k then k else Z.of_nat (length l) + k)) l.

(** What stands before the last [c] of [s], if [s] has one. *)
Fixpoint before_last (c : ascii) (s : string) : option string :=
  match s with
  | EmptyString => None
  | String a r =>
      match before_last c r with
      | Some p => Some (String a p)
      | None => if Ascii.eqb a c then Some EmptyString else None
      end
  end.

(** [s.rsplit(" ", 1)[0]] *)
Definition rsplit_head (s : string) : string :=
  match before_last " " s with
  | Some p => p
  | None => s
  end.

(** [s.rstrip(c)] for a one-character [c]. *)
Fixpoint rstrip_char (c : ascii) (s : string) : string :=
  match s with
  | EmptyString => EmptyString
  | String a r =>
      match rstrip_char c r with
      | EmptyString => if Ascii.eqb a c then EmptyString else String a EmptyString
      | r' => String a r'
      end
  end.

(** [s.upper()] *)
Definition upper (s : string) : string := map_chars upper_char s.

(** [s[:n]], with three dots after it when [s] is longer than [n]. *)
Definition clip (n : nat) (s : string) : string :=
  (substring 0 n s ++ (if (n <? String.length s)%nat then "..." else ""))%string.

(** *** The label shortener

    The ellipsis the shortener appends, U+2026, lies outside the ASCII range
    of the text model; one character above code 127 stands for it: like the
    ellipsis it is a single character, not a space, without case. *)

Definition ELLIPSIS : string := String (ascii_of_nat 133) EmptyString.

(** Lines 212-217. *)
Definition _truncate_label (text : value) (max_len : Z) : string :=
  let s := strip (title (replace "_" " " (str text))) in
  if Z.of_nat (String.length s) <=? max_len then s
  else
    let part := if contains " " (slice_to max_len s)
                then rsplit_head (slice_to (max_len - 1) s)
                else slice_to (max_len - 1) s in
    part ++ ELLIPSIS.

(** *** The check of the webhook address *)

(** Lines 69-77: the message, or nothing for a URL that passes. *)
Definition _validate_webhook_url (url : string) : option string :=
  if is_empty url || is_empty (strip url) then Some "Webhook URL is required."
  else
    let u := rstrip_char "/" (strip url) in
    if negb (String.prefix "http://" u || String.prefix "https://" u)
    then Some "URL must start with http:// or https://"
    else if negb (contains "webhook" (lower u)) && negb (contains "n8n" (lower u))
    then Some "URL should contain 'webhook' (e.g. /webhook/meta-sentiment)."
    else None.

(** *** The table of the review tab *)

(** [isinstance(r, dict)] *)
Definition is_record (r : value) : bool :=
  match r with Dict _ => true | _ => false end.

(** The strings of a list whose elements are all strings. *)
Fixpoint strings (xs : list value) : option (list string) :=
  match xs with
  | [] => Some []
  | Atom (AStr s) :: r => option_map (cons s) (strings r)
  | _ :: _ => None
  end.

(** Line 304, [", ".join((r.get("ai_themes") or [])[:3]).replace("_", " ")]:
    nothing when the slice or the join raises. *)
Definition themes_cell (kvs : list (string * value)) : option string :=
  option_map (fun parts => replace "_" " " (join ", " parts))
    match or_else (field kvs "ai_themes") (List []) with
    | List xs => strings (take 3 xs)
    | Atom (AStr s) => strings (chars (substring 0 3 s))
    | _ => None
    end.

(** A row of the frame; [number] is the column [#]. *)
Record row : Type :=
  { number : Z;
    Review : string;
    Sentiment : string;
    Score : value;
    Themes : string;
    ResponsePreview : string }.

(** Lines 297-306, for the record at index [i]. *)
Definition table_row (i : Z) (kvs : list (string * value)) : option row :=
  option_map
    (fun themes =>
       {| number := i + 1;
          Review := clip 60 (str (or_else (get kvs "headline" (Atom (AStr ""))) (Atom (AStr ""))));
          Sentiment := upper (str (get kvs "ai_sentiment" (Atom (AStr "N/A"))));
          Score := get kvs "ai_sentiment_score" (Atom (AStr "-"));
          Themes := themes;
          ResponsePreview := clip 80 (str (get kvs "personalized_response" (Atom (AStr "")))) |})
    (themes_cell kvs).

(** The loop of lines 295-306 from index [i] on. *)
Fixpoint table_rows (i : Z) (responses : list value) : option (list row) :=
  match responses with
  | [] => Some []
  | Dict kvs :: rest =>
      match table_row i kvs with
      | Some x => option_map (cons x) (table_rows (i + 1) rest)
      | None => None
      end
  | _ :: rest => table_rows (i + 1) rest
  end.

(** Lines 293-307: the rows of the frame; nothing when the call raises. *)
Definition build_table (responses : list value) (max_disp : Z) : option (list row) :=
  table_rows 0 (list_slice_to max_disp responses).

Definition is_string (v : value) : bool :=
  match v with Atom (AStr _) => true | _ => false end.

(** A record whose [ai_themes] is absent or a list of strings; an entry
    that is no record passes. *)
Definition themes_are_strings (r : value) : bool :=
  match r with
  | Dict kvs =>
      match lookup "ai_themes" kvs with
      | None => true
      | Some (List xs) => forallb is_string xs
      | Some _ => false
      end
  | _ => true
  end.

(** *** Notions of the further statements *)

(** The qualifying words of all records, in reading order. *)
Definition all_words (responses : list value) : list string := flat_map words_of responses.

(** The records that the sentiment filter lets through. *)
Definition after_sentiment (s : option string) (responses : list value) : list value :=
  match provided s with
  | Some s' => List.filter (has_sentiment (canon s')) responses
  | None => responses
  end.

(** The entries with the count [c]. *)
Definition with_count (c : Z) (entries : list (string * Z)) : list (string * Z) :=
  List.filter (fun e => snd e =? c) entries.

(** The sum of the counts of a tally. *)
Definition total_count (counts : list (string * Z)) : Z :=
  fold_right Z.add 0 (map snd counts).

(** A derived tally as the bars it is drawn as. *)
Definition as_bars (counts : list (string * Z)) : list (string * value) :=
  map (fun nc => (fst nc, Atom (AInt (snd nc)))) counts.

(** One turn of the loop of lines 203-208. *)
Definition derive_step (counts : list (string * Z)) (r : value) : list (string * Z) :=
  match r with
  | Dict kvs => incr (source_name_of_record kvs) counts
  | _ => counts
  end.




(** A payload of the store that is neither a mapping nor a sequence whose
    first element is a mapping: a scalar, an empty sequence, or a sequence
    that starts with a scalar or with a sequence. *)
Definition unstructured (h : list Store.obj) (data : Store.val) : bool :=
  match data with
  | Store.VAtom _ => true
  | Store.VRef l =>
      match h !! l with
      | Some (Store.OList []) => true
      | Some (Store.OList (Store.VAtom _ :: _)) => true
      | Some (Store.OList (Store.VRef l' :: _)) =>
          match h !! l' with Some (Store.OList _) => true | _ => false end
      | _ => false
      end
  end.

(** *** Tactics for running the store monad *)

Ltac heap_norm :=
  repeat rewrite <- app_assoc; cbn [app]; rewrite ?length_app; cbn [length].

Ltac run_monad :=
  unfold Store.bindM, Store.alloc, Store.isinstance_dict, Store.isinstance_list,
    Store.dict_get, Store.dict_contains, Store.ret;
  unfold Store.bindM, Store.ret; heap_norm.

(** * Proofs *)

Import Store Pattern.

(** ** Running the normalizer *)

Lemma setdefault_run l k v kvs (h : heap) :
  h !! l = Some (ODict kvs) ->
  setdefault (VRef l) k v h = Ok (tt, <[l := ODict (add_default k v kvs)]> h).
Proof.
  intros Hl. unfold setdefault, add_default. rewrite Hl.
  destruct (entry k kvs); [ | reflexivity ].
  now rewrite list_insert_id.
Qed.

Lemma lookup_insert_same (h : heap) l o o' :
  h !! l = Some o -> <[l := o']> h !! l = Some o'.
Proof.
  intros H. apply list_lookup_insert_eq. eapply lookup_lt_Some; eauto.
Qed.

Lemma alloc_run o (h : heap) : alloc o h = Ok (VRef (length h), h ++ [o]).
Proof. reflexivity. Qed.

Lemma lookup_grow (h g : heap) l o : h !! l = Some o -> (h ++ g) !! l = Some o.
Proof. intros H. rewrite lookup_app_l; auto. eapply lookup_lt_Some; eauto. Qed.

Lemma insert_grow (h g : heap) l o o' :
  h !! l = Some o -> <[l := o']> (h ++ g) = <[l := o']> h ++ g.
Proof. intros H. apply insert_app_l. eapply lookup_lt_Some; eauto. Qed.

Lemma fill_defaults_dict l kvs r n (h : heap) :
  h !! l = Some (ODict kvs) ->
  len r h = Ok (n, h) ->
  fill_defaults (VRef l) r h =
    Ok (tt, <[l := ODict (filled n (length h) kvs)]> h ++ [ODict []; ODict []; ODict []]).
Proof.
  intros Hl Hn.
  unfold fill_defaults, bindM, isinstance_dict, is_dict, deref. rewrite Hl, Hn.
  repeat (erewrite setdefault_run by (eauto using lookup_insert_same);
          rewrite ?list_insert_insert_eq).
  repeat (rewrite alloc_run; rewrite <- ?app_assoc; simpl app;
          erewrite setdefault_run by (eauto using lookup_grow, lookup_insert_same);
          erewrite insert_grow by (eauto using lookup_insert_same);
          rewrite ?list_insert_insert_eq).
  rewrite ?length_app, ?length_insert. simpl.
  unfold filled. repeat f_equal; lia.
Qed.

Lemma fill_defaults_raise l kvs r e (h : heap) :
  h !! l = Some (ODict kvs) ->
  len r h = Raise e ->
  fill_defaults (VRef l) r h = Raise e.
Proof.
  intros Hl Hn.
  unfold fill_defaults, bindM, isinstance_dict, is_dict, deref. now rewrite Hl, Hn.
Qed.

Lemma fill_defaults_other s r (h : heap) :
  is_dict h s = false ->
  fill_defaults s r h = Ok (tt, h).
Proof.
  intros Hs. unfold fill_defaults, bindM, isinstance_dict. now rewrite Hs.
Qed.

Lemma entry_app k (a b : list (string * val)) :
  entry k (a ++ b) = match entry k a with Some v => Some v | None => entry k b end.
Proof.
  induction a as [| [k' v] a IH]; simpl; [ reflexivity | ].
  destruct (String.eqb k k'); auto.
Qed.

Lemma entry_add_default k' k v kvs :
  entry k' (add_default k v kvs) =
    match entry k' kvs with
    | Some x => Some x
    | None => if String.eqb k' k then Some v else None
    end.
Proof.
  unfold add_default. destruct (entry k kvs) eqn:Hk.
  - destruct (entry k' kvs) eqn:Hk'; [ reflexivity | ].
    destruct (String.eqb_spec k' k); [ congruence | reflexivity ].
  - rewrite entry_app. simpl. destruct (entry k' kvs); reflexivity.
Qed.

Lemma filled_spec n base kvs (h' : heap) :
  h' !! base = Some (ODict []) ->
  h' !! (base + 1)%nat = Some (ODict []) ->
  h' !! (base + 2)%nat = Some (ODict []) ->
  defaults_filled n h' kvs (filled n base kvs).
Proof.
  intros H0 H1 H2. unfold defaults_filled, filled.
  repeat split.
  - intros k v Hk. now rewrite !entry_add_default, Hk.
  - intros Hk. now rewrite !entry_add_default, Hk.
  - intros k Hin Hk. rewrite !entry_add_default, Hk.
    simpl in Hin. repeat (destruct Hin as [<- | Hin]; [ reflexivity | ]). destruct Hin.
  - intros Hk. now rewrite !entry_add_default, Hk.
  - intros k Hin Hk. rewrite !entry_add_default, Hk.
    simpl in Hin. repeat (destruct Hin as [<- | Hin]; [ simpl; eauto | ]). destruct Hin.
  - intros k Hnin Hk. rewrite !entry_add_default, Hk.
    repeat match goal with
           | |- context [String.eqb k ?f] =>
               destruct (String.eqb_spec k f);
               [ exfalso; apply Hnin; subst k; simpl; tauto | ]
           end.
    reflexivity.
Qed.

Lemma len_heap r n (h h' : heap) : len r h = Ok (n, h') -> h' = h.
Proof.
  unfold len. intros H.
  destruct r as [[ | | | | ] | l]; try discriminate; try (now inversion H).
  destruct (h !! l) as [[|] |]; now inversion H.
Qed.

Lemma is_dict_inv (h : heap) s :
  is_dict h s = true -> exists l kvs, s = VRef l /\ h !! l = Some (ODict kvs).
Proof.
  unfold is_dict, deref. destruct s as [a | l]; [ discriminate | ].
  destruct (h !! l) as [[kvs | xs] |] eqn:Hl; try discriminate. eauto.
Qed.

Lemma as_list_run r (h : heap) :
  as_list r h =
    Ok (if is_list h r then (r, h)
        else (VRef (length h), h ++ [OList (if is_dict h r then [r] else [])])).
Proof.
  unfold as_list, bindM, isinstance_list, isinstance_dict, ret, alloc.
  destruct (is_list h r); reflexivity.
Qed.

Lemma parse_unfold data s r (h h1 : heap) :
  select data h = Ok ((s, r), h1) ->
  parse_workflow_response data h =
    match fill_defaults s r h1 with
    | Ok (_, h2) =>
        match as_list r h2 with
        | Ok (r', h') => Ok ((s, r'), h')
        | Raise e => Raise e
        end
    | Raise e => Raise e
    end.
Proof.
  intros Hs. unfold parse_workflow_response, bindM. rewrite Hs. simpl.
  destruct (fill_defaults s r h1) as [[u h2] | e]; [ | reflexivity ].
  destruct (as_list r h2) as [[r' h'] | e]; reflexivity.
Qed.


Lemma entries_run l kvs (h : heap) :
  h !! l = Some (ODict kvs) -> entries (VRef l) h = Ok (kvs, h).
Proof. intros H. unfold entries, deref. now rewrite H. Qed.

 
Lemma from_object_grows data sr (h : heap) :
  exists s r g, from_object data sr h = Ok ((s, r), h ++ g).
Proof.
  unfold from_object, bindM, isinstance_dict.
  destruct (is_dict h data) eqn:Hd.
  - destruct (is_dict_inv _ _ Hd) as (l & kvs & -> & Hl).
    run_monad. erewrite !entries_run by (eauto using lookup_grow). heap_norm.
    erewrite ?entries_run by (eauto using lookup_grow). eauto.
  - destruct sr as [s r]. exists s, r, []. unfold ret. now rewrite app_nil_r.
Qed.

Lemma from_sequence_grows data sr (h : heap) :
  exists s r g, from_sequence data sr h = Ok ((s, r), h ++ g).
Proof.
  unfold from_sequence.
  assert (Hsr : exists s r g, ret sr h = Ok ((s, r), h ++ g)).
  { destruct sr as [s r]. exists s, r, []. unfold ret. now rewrite app_nil_r. }
  destruct (nonempty_list h data) as [[first rest] |]; [ | exact Hsr ].
  unfold bindM at 1. unfold isinstance_dict at 1.
  destruct (is_dict h first) eqn:Hf; [ | exact Hsr ].
  destruct (is_dict_inv _ _ Hf) as (l & kvs & -> & Hl).
  run_monad. erewrite !entries_run by (eauto using lookup_grow). heap_norm.
  erewrite ?entries_run by (eauto using lookup_grow). eauto.
Qed.

Lemma select_grows data (h : heap) :
  exists s r g, select data h = Ok ((s, r), h ++ g).
Proof.
  unfold select. unfold bindM at 1 2 3. unfold alloc.
  destruct (from_object_grows data (VRef (length h), VRef (length (h ++ [ODict []])))
              ((h ++ [ODict []]) ++ [OList []])) as (s1 & r1 & g1 & ->).
  destruct (from_sequence_grows data (s1, r1) (((h ++ [ODict []]) ++ [OList []]) ++ g1))
    as (s2 & r2 & g2 & ->).
  exists s2, r2. rewrite <- !app_assoc. eauto.
Qed.

Lemma select_dict ld kvs (h : heap) :
  h !! ld = Some (ODict kvs) ->
  select (VRef ld) h =
    Ok ((get_or (entry "sentiment" kvs) (VRef (length h + 2)),
         get_or (entry "responses" kvs) (VRef (length h + 3))),
        h ++ [ODict []; OList []; ODict []; OList []]).
Proof.
  intros Hd. unfold select, from_object, from_sequence. run_monad.
  unfold is_dict at 1. unfold deref. rewrite (lookup_grow _ _ _ _ Hd).
  erewrite !entries_run by (eauto using lookup_grow). heap_norm.
  erewrite ?entries_run by (eauto using lookup_grow).
  unfold nonempty_list, deref. rewrite (lookup_grow _ _ _ _ Hd).
  reflexivity.
Qed.

Lemma select_list_dict ld lf rest kvs (h : heap) :
  h !! ld = Some (OList (VRef lf :: rest)) ->
  h !! lf = Some (ODict kvs) ->
  select (VRef ld) h =
    Ok ((get_or (entry "sentiment" kvs) (VRef lf),
         get_or (entry "responses" kvs) (VRef (length h + 2))),
        h ++ [ODict []; OList [];
              OList (if has_key "headline" kvs || has_key "personalized_response" kvs
                     then [VRef lf] else [])]).
Proof.
  intros Hd Hf. unfold select, from_object, from_sequence. run_monad.
  unfold is_dict at 1. unfold deref. rewrite (lookup_grow _ _ _ _ Hd).
  unfold nonempty_list, deref. rewrite (lookup_grow _ _ _ _ Hd).
  unfold is_dict, deref. rewrite (lookup_grow _ _ _ _ Hf).
  erewrite !entries_run by (eauto using lookup_grow). heap_norm.
  erewrite ?entries_run by (eauto using lookup_grow).
  reflexivity.
Qed.

Lemma lookup_fresh (h g : heap) o : (h ++ o :: g) !! length h = Some o.
Proof. apply list_lookup_middle. reflexivity. Qed.

Lemma lookup_fresh_n (h : heap) (g : list obj) i o :
  g !! i = Some o -> (h ++ g) !! (length h + i)%nat = Some o.
Proof. intros H. rewrite lookup_app_r by lia. now replace (length h + i - length h)%nat with i by lia. Qed.

Lemma is_list_fresh (h : heap) xs g : is_list (h ++ OList xs :: g) (VRef (length h)) = true.
Proof. unfold is_list, deref. now rewrite lookup_fresh. Qed.

Lemma three_fresh (h1 : heap) l o g i :
  (i < 3)%nat ->
  (<[l := o]> h1 ++ [ODict []; ODict []; ODict []] ++ g) !! (length h1 + i)%nat
  = Some (ODict []).
Proof.
  intros Hi. rewrite lookup_app_r by (rewrite length_insert; lia).
  rewrite length_insert. replace (length h1 + i - length h1)%nat with i by lia.
  destruct i as [| [| [| i]]]; try reflexivity; lia.
Qed.

(** What a call does, by the kind of the summary candidate. *)
Lemma parse_cases data s r (h h1 : heap) :
  select data h = Ok ((s, r), h1) ->
  (is_dict h1 s = false /\
   exists r' g, parse_workflow_response data h = Ok ((s, r'), h1 ++ g) /\
                is_list (h1 ++ g) r' = true) \/
  (exists l kvs, s = VRef l /\ h1 !! l = Some (ODict kvs) /\
     ((exists e, len r h1 = Raise e /\ parse_workflow_response data h = Raise e) \/
      (exists n r' g,
          len r h1 = Ok (n, h1) /\
          parse_workflow_response data h =
            Ok ((s, r'),
                <[l := ODict (filled n (length h1) kvs)]> h1
                  ++ [ODict []; ODict []; ODict []] ++ g) /\
          is_list (<[l := ODict (filled n (length h1) kvs)]> h1
                     ++ [ODict []; ODict []; ODict []] ++ g) r' = true))).
Proof.
  intros Hsel. rewrite (parse_unfold _ _ _ _ _ Hsel).
  destruct (is_dict h1 s) eqn:Hs.
  - right. destruct (is_dict_inv _ _ Hs) as (l & kvs & -> & Hl).
    exists l, kvs. repeat split; auto.
    destruct (len r h1) as [[n hn] | e] eqn:Hn.
    + right. pose proof (len_heap _ _ _ _ Hn) as ->.
      rewrite (fill_defaults_dict _ _ _ _ _ Hl Hn), as_list_run.
      set (h2 := <[l:=ODict (filled n (length h1) kvs)]> h1 ++ [ODict []; ODict []; ODict []]).
      destruct (is_list h2 r) eqn:Hr.
      * exists n, r, []. cbn [app]. auto.
      * exists n, (VRef (length h2)), [OList (if is_dict h2 r then [r] else [])].
        replace (<[l:=ODict (filled n (length h1) kvs)]> h1 ++
                 [ODict []; ODict []; ODict []] ++ [OList (if is_dict h2 r then [r] else [])])
          with (h2 ++ [OList (if is_dict h2 r then [r] else [])])
          by (subst h2; now rewrite <- app_assoc).
        repeat split; auto. apply is_list_fresh.
    + left. exists e. split; auto. now rewrite (fill_defaults_raise _ _ _ _ _ Hl Hn).
  - left. split; auto. rewrite (fill_defaults_other _ _ _ Hs), as_list_run.
    destruct (is_list h1 r) eqn:Hr.
    + exists r, []. now rewrite app_nil_r.
    + exists (VRef (length h1)), [OList (if is_dict h1 r then [r] else [])].
      split; [ reflexivity | apply is_list_fresh ].
Qed.

(** ** The normalizer *)

(** C1, as amended.  For every payload and store the two candidates are
    selected without raising.  Whenever the summary candidate is not a
    mapping, or the responses candidate has a length, the call returns the
    summary candidate and a record list; when the summary candidate is a
    mapping, what it holds afterwards is what it held before with every
    absent field filled: [len] of the responses candidate for [totalItems],
    0 for the counts and percents, 0.0 for [avgScore], a new empty mapping for
    [topThemes], [topConcerns] and [sourceBreakdown]. *)
Theorem parse_workflow_response_defaults (data : val) (h : heap) :
  exists s r h1,
    select data h = Ok ((s, r), h1) /\
    (is_dict h1 s = false \/ sized h1 r = true ->
     exists r' h',
       parse_workflow_response data h = Ok ((s, r'), h') /\
       is_list h' r' = true /\
       forall l before,
         s = VRef l -> h1 !! l = Some (ODict before) ->
         exists n after,
           len r h1 = Ok (n, h1) /\
           h' !! l = Some (ODict after) /\
           defaults_filled n h' before after).
Proof.
  destruct (select_grows data h) as (s & r & g & Hsel).
  exists s, r, (h ++ g). split; [ exact Hsel | ].
  intros Hok.
  destruct (parse_cases _ _ _ _ _ Hsel)
    as [(Hs & r' & g' & Hp & Hl) | (l & kvs & -> & Hd & Hcase)].
  - exists r', ((h ++ g) ++ g'). repeat split; auto.
    intros l before -> Hb. unfold is_dict, deref in Hs. now rewrite Hb in Hs.
  - destruct Hcase as [(e & Hn & _) | (n & r' & g' & Hn & Hp & Hl)].
    + exfalso. destruct Hok as [Hs | Hs].
      * unfold is_dict, deref in Hs. now rewrite Hd in Hs.
      * unfold sized in Hs. now rewrite Hn in Hs.
    + eexists r', _. split; [ exact Hp | ]. split; [ exact Hl | ].
      intros l' before [= <-] Hb. rewrite Hd in Hb. injection Hb as <-.
      exists n, (filled n (length (h ++ g)) kvs). split; [ exact Hn | ].
      split.
      * apply lookup_grow. eapply lookup_insert_same; eauto.
      * apply filled_spec; [ rewrite <- (Nat.add_0_r (length (h ++ g))) | | ];
          apply three_fresh; lia.
Qed.

(** The statement above at the payload [[]] stored as object 0. *)
Lemma parse_workflow_response_defaults_witness :
  exists r' h',
    parse_workflow_response (VRef 0) [OList []] = Ok ((VRef 1, r'), h') /\
    is_list h' r' = true /\
    forall l before,
      VRef 1 = VRef l -> [OList []; ODict []; OList []] !! l = Some (ODict before) ->
      exists n after,
        len (VRef 2) [OList []; ODict []; OList []] = Ok (n, [OList []; ODict []; OList []]) /\
        h' !! l = Some (ODict after) /\
        defaults_filled n h' before after.
Proof.
  destruct (parse_workflow_response_defaults (VRef 0) [OList []])
    as (s & r & h1 & Hsel & H).
  vm_compute in Hsel. injection Hsel as <- <- <-.
  apply H. right. reflexivity.
Defined.

(** C1 as stated fails: a payload with one response and no [totalItems] gets
    [totalItems] 1, not 0; and a summary that is not a mapping is handed back
    as it came, with no field filled. *)
Lemma normalize_total_defaults_to_record_count :
  normalize 3 (Dict [("responses", List [Atom ANone])])
    = Ok (Some (Dict (default_summary 1), List [Atom ANone])) /\
  normalize 3 (Dict [("sentiment", Atom (AInt 5))])
    = Ok (Some (Atom (AInt 5), List [])).
Proof. split; reflexivity. Qed.

(** [len(responses)] is taken before line 127 turns a value that is not a
    list into one: a null [responses] under a mapping summary raises. *)
Example normalize_null_responses_raises :
  normalize 3 (Dict [("responses", Atom ANone)]) = Raise TypeError /\
  normalize 3 (Dict [("sentiment", Atom (AInt 5)); ("responses", Atom ANone)])
    = Ok (Some (Atom (AInt 5), List [])).
Proof. split; reflexivity. Qed.

(** C2, as amended.  For a payload object whose [sentiment] is the mapping
    [S] and whose [responses] is the list [R], the call returns [S] itself
    and [R] itself: [R] is left as it is, entries that are not records
    included, and [S] holds what it held with its absent fields filled,
    [totalItems] with the length of [R]. *)
Theorem parse_object_summary_and_records (h : heap) ld lS lR kvs S R :
  h !! ld = Some (ODict kvs) ->
  entry "sentiment" kvs = Some (VRef lS) ->
  entry "responses" kvs = Some (VRef lR) ->
  h !! lS = Some (ODict S) ->
  h !! lR = Some (OList R) ->
  exists h' S',
    parse_workflow_response (VRef ld) h = Ok ((VRef lS, VRef lR), h') /\
    h' !! lR = Some (OList R) /\
    h' !! lS = Some (ODict S') /\
    defaults_filled (Z.of_nat (length R)) h' S S'.
Proof.
  intros Hd Hs Hr HS HR.
  pose proof (select_dict _ _ _ Hd) as Hsel. rewrite Hs, Hr in Hsel. cbn [get_or] in Hsel.
  set (h1 := h ++ [ODict []; OList []; ODict []; OList []]) in *.
  assert (HS1 : h1 !! lS = Some (ODict S)) by (now apply lookup_grow).
  assert (HR1 : h1 !! lR = Some (OList R)) by (now apply lookup_grow).
  assert (Hlen : len (VRef lR) h1 = Ok (Z.of_nat (length R), h1))
    by (unfold len; now rewrite HR1).
  assert (Hne : lS <> lR) by (intros ->; rewrite HS in HR; discriminate).
  rewrite (parse_unfold _ _ _ _ _ Hsel), (fill_defaults_dict _ _ _ _ _ HS1 Hlen), as_list_run.
  set (S' := filled (Z.of_nat (length R)) (length h1) S).
  assert (HR2 : (<[lS:=ODict S']> h1 ++ [ODict []; ODict []; ODict []]) !! lR = Some (OList R)).
  { apply lookup_grow. now rewrite list_lookup_insert_ne. }
  unfold is_list at 1. unfold deref. rewrite HR2.
  eexists _, S'. split; [ reflexivity | ]. split; [ exact HR2 | ]. split.
  - apply lookup_grow. eapply lookup_insert_same; eauto.
  - apply filled_spec; [ rewrite <- (Nat.add_0_r (length h1)) | | ];
      apply (three_fresh h1 lS (ODict S') []); lia.
Qed.

Lemma parse_object_summary_and_records_witness :
  exists h' S',
    parse_workflow_response (VRef 2) object_store = Ok ((VRef 0, VRef 1), h') /\
    h' !! 1%nat = Some (OList [VAtom (AInt 5)]) /\
    h' !! 0%nat = Some (ODict S') /\
    defaults_filled 1 h' [] S'.
Proof.
  apply (parse_object_summary_and_records object_store 2 0 1
           [("sentiment", VRef 0); ("responses", VRef 1)] [] [VAtom (AInt 5)]);
    reflexivity.
Defined.

(** C2 as stated fails: the entry 5 of the responses is not a record and is
    returned all the same, and [totalItems] is filled with 1. *)
Lemma normalize_keeps_non_record_entries :
  normalize 3 (Dict [("sentiment", Dict []); ("responses", List [Atom (AInt 5)])])
    = Ok (Some (Dict (default_summary 1), List [Atom (AInt 5)])).
Proof. reflexivity. Qed.

(** C9, as amended.  A call that returns leaves every object of the store as
    it was, except the mapping it returns as the summary; that mapping keeps
    every entry it had and gains no key beyond the eleven summary fields. *)
Theorem parse_workflow_response_frame data s r (h h' : heap) :
  parse_workflow_response data h = Ok ((s, r), h') ->
  (forall l o, h !! l = Some o -> VRef l <> s -> h' !! l = Some o) /\
  (forall l before,
      s = VRef l -> h !! l = Some (ODict before) ->
      exists after,
        h' !! l = Some (ODict after) /\
        (forall k v, entry k before = Some v -> entry k after = Some v) /\
        (forall k, ~ In k SUMMARY_FIELDS -> entry k before = None -> entry k after = None)).
Proof.
  intros Hp.
  destruct (select_grows data h) as (s0 & r0 & g & Hsel).
  destruct (parse_cases _ _ _ _ _ Hsel)
    as [(Hs & r' & g' & Hp' & _) | (l & kvs & -> & Hd & Hcase)].
  - rewrite Hp' in Hp. injection Hp as <- <- <-. split.
    + intros l o Hl _. now apply lookup_grow, lookup_grow.
    + intros l before -> Hb. unfold is_dict, deref in Hs.
      now rewrite (lookup_grow _ g _ _ Hb) in Hs.
  - destruct Hcase as [(e & _ & Hp') | (n & r' & g' & Hn & Hp' & _)];
      rewrite Hp' in Hp; [ discriminate | ].
    injection Hp as <- <- <-. split.
    + intros l' o Hl Hne. apply lookup_grow.
      rewrite list_lookup_insert_ne by congruence. now apply lookup_grow.
    + intros l' before [= <-] Hb.
      rewrite (lookup_grow _ g _ _ Hb) in Hd. injection Hd as <-.
      exists (filled n (length (h ++ g)) before). split; [ | split ].
      * apply lookup_grow. eapply lookup_insert_same. eapply lookup_grow; eauto.
      * intros k v Hk. unfold filled. now rewrite !entry_add_default, Hk.
      * intros k Hnin Hk. unfold filled. rewrite !entry_add_default, Hk.
        repeat match goal with
               | |- context [String.eqb k ?f] =>
                   destruct (String.eqb_spec k f);
                   [ exfalso; apply Hnin; subst k; simpl; tauto | ]
               end.
        reflexivity.
Qed.

Lemma parse_workflow_response_frame_witness :
  (forall l o, nested_store !! l = Some o -> VRef l <> VRef 0 ->
               nested_store_after !! l = Some o) /\
  (forall l before,
      VRef 0 = VRef l -> nested_store !! l = Some (ODict before) ->
      exists after,
        nested_store_after !! l = Some (ODict after) /\
        (forall k v, entry k before = Some v -> entry k after = Some v) /\
        (forall k, ~ In k SUMMARY_FIELDS -> entry k before = None -> entry k after = None)).
Proof.
  apply (parse_workflow_response_frame (VRef 1) (VRef 0) (VRef 5)
           nested_store nested_store_after).
  reflexivity.
Defined.

(** C9 as stated fails: the mapping under [sentiment] of the payload is
    empty before the call and holds the eleven defaults after it. *)
Lemma normalize_writes_into_the_payload :
  nested_store !! 0%nat = Some (ODict []) /\
  parse_workflow_response (VRef 1) nested_store
    = Ok ((VRef 0, VRef 5), nested_store_after) /\
  nested_store_after !! 0%nat = Some (ODict (filled 0 6 [])).
Proof. repeat split; reflexivity. Qed.

(** C10, as amended.  For a sequence whose first element is an object with
    no [sentiment] key and no [responses] key and with a [headline] or a
    [personalized_response], the call returns that object as the summary and
    a new list whose only element is that same object; the object keeps its
    review fields and has its absent summary fields filled, [totalItems]
    with 1. *)
Theorem parse_single_review (h : heap) ld lf rest kvs :
  h !! ld = Some (OList (VRef lf :: rest)) ->
  h !! lf = Some (ODict kvs) ->
  entry "sentiment" kvs = None ->
  entry "responses" kvs = None ->
  has_key "headline" kvs || has_key "personalized_response" kvs = true ->
  exists lr h' after,
    parse_workflow_response (VRef ld) h = Ok ((VRef lf, VRef lr), h') /\
    h !! lr = None /\
    h' !! lr = Some (OList [VRef lf]) /\
    h' !! lf = Some (ODict after) /\
    defaults_filled 1 h' kvs after.
Proof.
  intros Hd Hf Hs Hr Hk.
  pose proof (select_list_dict _ _ _ _ _ Hd Hf) as Hsel.
  rewrite Hs, Hr, Hk in Hsel. cbn [get_or] in Hsel.
  set (h1 := h ++ [ODict []; OList []; OList [VRef lf]]) in *.
  assert (Hf1 : h1 !! lf = Some (ODict kvs)) by (now apply lookup_grow).
  assert (Hr1 : h1 !! (length h + 2)%nat = Some (OList [VRef lf]))
    by (now apply lookup_fresh_n).
  assert (Hlen : len (VRef (length h + 2)) h1 = Ok (1, h1))
    by (unfold len; now rewrite Hr1).
  assert (Hne : lf <> (length h + 2)%nat)
    by (apply lookup_lt_Some in Hf; lia).
  rewrite (parse_unfold _ _ _ _ _ Hsel), (fill_defaults_dict _ _ _ _ _ Hf1 Hlen), as_list_run.
  set (after := filled 1 (length h1) kvs).
  assert (Hr2 : (<[lf:=ODict after]> h1 ++ [ODict []; ODict []; ODict []]) !! (length h + 2)%nat
                = Some (OList [VRef lf])).
  { apply lookup_grow. now rewrite list_lookup_insert_ne. }
  unfold is_list at 1. unfold deref. rewrite Hr2.
  eexists _, _, after. split; [ reflexivity | ].
  split; [ apply lookup_ge_None; lia | ].
  split; [ exact Hr2 | ]. split.
  - apply lookup_grow. eapply lookup_insert_same; eauto.
  - apply filled_spec; [ rewrite <- (Nat.add_0_r (length h1)) | | ];
      apply (three_fresh h1 lf (ODict after) []); lia.
Qed.

Lemma parse_single_review_witness :
  exists lr h' after,
    parse_workflow_response (VRef 1) review_store = Ok ((VRef 0, VRef lr), h') /\
    review_store !! lr = None /\
    h' !! lr = Some (OList [VRef 0]) /\
    h' !! 0%nat = Some (ODict after) /\
    defaults_filled 1 h' [("headline", VAtom (AStr "Great glasses"))] after.
Proof.
  apply (parse_single_review review_store 1 0 []
           [("headline", VAtom (AStr "Great glasses"))]);
    reflexivity.
Defined.

(** C10 as stated fails: a first element with a [headline] and its own
    [responses] gives those responses, not itself, as the records, and
    [totalItems] is their number; and a [totalItems] that is present stays. *)
Lemma single_review_with_own_fields :
  normalize 3 (List [Dict [("headline", Atom (AStr "h")); ("responses", List [])]])
    = Ok (Some (Dict (("headline", Atom (AStr "h")) :: ("responses", List [])
                        :: default_summary 0),
                List [])) /\
  match normalize 3 (List [Dict [("headline", Atom (AStr "h"));
                                 ("totalItems", Atom (AInt 7))]]) with
  | Ok (Some (Dict summary, _)) => lookup "totalItems" summary = Some (Atom (AInt 7))
  | _ => False
  end.
Proof. split; reflexivity. Qed.

(** ** The record filter *)

Lemma lstrip_blank s : all_chars is_space s = true -> lstrip s = "".
Proof.
  induction s as [| c r IH]; simpl; [ reflexivity | ].
  intros H. apply andb_prop in H as [Hc Hr]. rewrite Hc. auto.
Qed.

Lemma provided_blank f : is_blank f = true -> provided f = None.
Proof.
  destruct f as [s |]; simpl; [ | reflexivity ].
  intros H. unfold strip. rewrite (lstrip_blank _ H). simpl.
  now rewrite andb_false_r.
Qed.

(** C6, as amended.  With both filter arguments absent or blank the filter
    returns its input as it is, entries that are not records included. *)
Theorem filter_blank_returns_input (responses : list value) (s t : option string) :
  is_blank s = true -> is_blank t = true ->
  _filter_responses responses s t = Ok responses.
Proof.
  intros Hs Ht. unfold _filter_responses.
  rewrite (provided_blank _ Hs), (provided_blank _ Ht).
  now destruct responses.
Qed.

Lemma filter_blank_returns_input_witness :
  _filter_responses [Atom (AInt 5); great_glasses] (Some "  ") None
    = Ok [Atom (AInt 5); great_glasses].
Proof.
  apply (filter_blank_returns_input [Atom (AInt 5); great_glasses] (Some "  ") None);
    reflexivity.
Defined.

(** C6 as stated fails: the entry 5 is not a record and is not dropped. *)
Lemma filter_blank_keeps_non_record_entries :
  _filter_responses [Atom (AInt 5); Dict []] (Some "") (Some "")
    = Ok [Atom (AInt 5); Dict []].
Proof. reflexivity. Qed.

Lemma keep_sentiment_spec lab r : keep_sentiment lab r = has_sentiment lab r.
Proof. now destruct r. Qed.

Lemma keep_theme_spec key r :
  themes_iterable r = true -> keep_theme key r = Ok (has_theme key r).
Proof.
  destruct r as [a | xs | kvs]; try reflexivity.
  unfold themes_iterable, iterable, keep_theme, has_theme, theme_tokens, items.
  destruct (iter _); [ reflexivity | discriminate ].
Qed.

Lemma filter_r_pure (p : value -> result bool) (q : value -> bool) (l : list value) :
  Forall (fun r => p r = Ok (q r)) l -> filter_r p l = Ok (List.filter q l).
Proof.
  induction 1 as [| x l Hx Hl IH]; simpl; [ reflexivity | ].
  rewrite Hx, IH. simpl. destruct (q x); reflexivity.
Qed.

Lemma Forall_filter {A} (P : A -> Prop) (q : A -> bool) (l : list A) :
  Forall P l -> Forall P (List.filter q l).
Proof.
  induction 1 as [| x l Hx Hl IH]; simpl; [ constructor | ].
  destruct (q x); auto.
Qed.

Lemma filter_comm {A} (p q : A -> bool) (l : list A) :
  List.filter p (List.filter q l) = List.filter q (List.filter p l).
Proof.
  induction l as [| x l IH]; simpl; [ reflexivity | ].
  destruct (p x) eqn:Hp, (q x) eqn:Hq; simpl; rewrite ?Hp, ?Hq, IH; reflexivity.
Qed.


Lemma filter_responses_run responses s t :
  Forall (fun r => themes_iterable r = true) responses ->
  _filter_responses responses s t =
    Ok (let l := match provided s with
                 | Some s' => List.filter (has_sentiment (canon s')) responses
                 | None => responses
                 end in
        match provided t with
        | Some t' => List.filter (has_theme (canon t')) l
        | None => l
        end).
Proof.
  intros Hit. unfold _filter_responses.
  destruct responses as [| r0 rs]; [ now destruct (provided s), (provided t) | ].
  cbn [is_nil].
  set (rs' := r0 :: rs) in *.
  assert (Hs : match provided s with
               | Some s' => List.filter (fun r => keep_sentiment (lower (strip s')) r) rs'
               | None => rs'
               end =
               match provided s with
               | Some s' => List.filter (has_sentiment (canon s')) rs'
               | None => rs'
               end).
  { destruct (provided s); [ | reflexivity ].
    apply filter_ext. intros r. apply keep_sentiment_spec. }
  rewrite Hs. cbv zeta.
  destruct (provided t) as [t' |]; [ | reflexivity ].
  apply filter_r_pure.
  assert (Hall : Forall (fun r => themes_iterable r = true)
                   match provided s with
                   | Some s' => List.filter (has_sentiment (canon s')) rs'
                   | None => rs'
                   end)
    by (destruct (provided s); [ now apply Forall_filter | assumption ]).
  eapply Forall_impl; [ exact Hall | ].
  intros r Hr. now apply keep_theme_spec.
Qed.

Lemma mem_In x l : mem x l = true <-> In x l.
Proof.
  unfold mem. rewrite existsb_exists. split.
  - intros (y & Hy & Heq). apply String.eqb_eq in Heq. now subst.
  - intros H. exists x. split; [ assumption | apply String.eqb_refl ].
Qed.

(** C7.  With the sentiment "positive" and a blank theme the filter returns
    exactly the records whose canonical sentiment label is "positive", in
    their order.  With a sentiment and a theme it returns the records that
    pass both filters, whichever is applied first, a theme matching a record
    when it equals one of the record's theme tokens, case apart. *)
Theorem filter_by_sentiment_and_theme (responses : list value) (s t : string) :
  provided (Some s) = Some s ->
  provided (Some t) = Some t ->
  Forall (fun r => themes_iterable r = true) responses ->
  (forall blank, is_blank blank = true ->
     _filter_responses responses (Some "positive") blank =
       Ok (List.filter (has_sentiment "positive") responses)) /\
  exists only_s only_t both,
    _filter_responses responses (Some s) None = Ok only_s /\
    _filter_responses responses None (Some t) = Ok only_t /\
    _filter_responses responses (Some s) (Some t) = Ok both /\
    _filter_responses only_s None (Some t) = Ok both /\
    _filter_responses only_t (Some s) None = Ok both /\
    (forall r, In r both <-> In r only_s /\ In r only_t) /\
    (forall r, In r only_s <->
               In r responses /\ exists kvs, r = Dict kvs /\ sentiment_label kvs = canon s) /\
    (forall r, In r only_t <->
               In r responses /\ exists kvs, r = Dict kvs /\ In (canon t) (theme_tokens kvs)).
Proof.
  intros Hs Ht Hit. split.
  - intros blank Hb. rewrite (filter_responses_run _ _ _ Hit).
    rewrite (provided_blank _ Hb). reflexivity.
  - exists (List.filter (has_sentiment (canon s)) responses),
           (List.filter (has_theme (canon t)) responses),
           (List.filter (has_theme (canon t)) (List.filter (has_sentiment (canon s)) responses)).
    split; [ rewrite (filter_responses_run _ _ _ Hit), Hs; reflexivity | ].
    split; [ rewrite (filter_responses_run _ _ _ Hit), Ht; reflexivity | ].
    split; [ rewrite (filter_responses_run _ _ _ Hit), Hs, Ht; reflexivity | ].
    split; [ rewrite filter_responses_run by (now apply Forall_filter);
             rewrite Ht; reflexivity | ].
    split; [ rewrite filter_responses_run by (now apply Forall_filter);
             rewrite Hs; cbn [provided]; cbv zeta; f_equal; apply filter_comm | ].
    split; [ intros r; rewrite !filter_In; tauto | ].
    split; intros r; rewrite filter_In.
    + split.
      * intros [Hin H]. split; [ assumption | ].
        destruct r as [a | xs | kvs]; try discriminate.
        exists kvs. split; [ reflexivity | ]. now apply String.eqb_eq.
      * intros (Hin & kvs & -> & Hl). split; [ assumption | ]. now apply String.eqb_eq.
    + split.
      * intros [Hin H]. split; [ assumption | ].
        destruct r as [a | xs | kvs]; try discriminate.
        exists kvs. split; [ reflexivity | ]. now apply mem_In.
      * intros (Hin & kvs & -> & Hl). split; [ assumption | ]. now apply mem_In.
Qed.

Lemma filter_by_sentiment_and_theme_witness :
  (forall blank, is_blank blank = true ->
     _filter_responses [great_glasses; battery_complaint] (Some "positive") blank =
       Ok (List.filter (has_sentiment "positive") [great_glasses; battery_complaint])) /\
  exists only_s only_t both,
    _filter_responses [great_glasses; battery_complaint] (Some " Positive") None
      = Ok only_s /\
    _filter_responses [great_glasses; battery_complaint] None (Some "camera_quality")
      = Ok only_t /\
    _filter_responses [great_glasses; battery_complaint]
      (Some " Positive") (Some "camera_quality") = Ok both /\
    _filter_responses only_s None (Some "camera_quality") = Ok both /\
    _filter_responses only_t (Some " Positive") None = Ok both /\
    (forall r, In r both <-> In r only_s /\ In r only_t) /\
    (forall r, In r only_s <->
               In r [great_glasses; battery_complaint] /\
               exists kvs, r = Dict kvs /\ sentiment_label kvs = canon " Positive") /\
    (forall r, In r only_t <->
               In r [great_glasses; battery_complaint] /\
               exists kvs, r = Dict kvs /\ In (canon "camera_quality") (theme_tokens kvs)).
Proof.
  apply (filter_by_sentiment_and_theme [great_glasses; battery_complaint]
           " Positive" "camera_quality");
    [ reflexivity | reflexivity | repeat constructor ].
Defined.

(** A theme is compared with whole tokens: "camera" is inside
    "camera_quality" and matches nothing. *)
Example theme_filter_is_not_substring :
  _filter_responses [great_glasses; battery_complaint] None (Some "camera") = Ok [] /\
  _filter_responses [great_glasses; battery_complaint] None (Some "CAMERA_QUALITY ")
    = Ok [great_glasses; battery_complaint].
Proof. split; reflexivity. Qed.

(** ** The keyword extractor *)


Lemma is_az_word c : is_az c = true -> is_word c = true.
Proof. unfold is_word, is_alpha. intros ->. now rewrite orb_true_r. Qed.

Lemma not_word_not_alpha c : word c = false -> alphabetic c = false.
Proof.
  destruct c as [c |]; simpl; [ | reflexivity ].
  unfold is_word. intros H. apply orb_false_elim in H as [H _].
  now apply orb_false_elim in H as [H _].
Qed.

(** The first [j] characters of a run, and what follows them. *)
Lemma run_prefix s j :
  (1 <= j <= run_length s)%nat ->
  exists q,
    s = (substring 0 j s ++ q)%string /\
    String.length (substring 0 j s) = j /\
    all_chars is_az (substring 0 j s) = true /\
    String.get j s = first_char q /\
    (exists c, String.get (j - 1) s = Some c /\ is_az c = true) /\
    (exists c, first_char s = Some c /\ is_az c = true).
Proof.
  revert j. induction s as [| c r IH]; intros j [H1 Hj]; simpl in Hj; [ lia | ].
  destruct (is_az c) eqn:Hc; [ | lia ].
  destruct j as [| j]; [ lia | ].
  destruct j as [| j].
  - exists r. simpl. rewrite Hc. destruct r; simpl; repeat split; eauto.
  - destruct (IH (S j)) as (q & Heq & Hlen & Haz & Hget & (c1 & Hc1 & Haz1) & _); [ lia | ].
    exists q. cbn [substring]. cbn [String.append]. rewrite <- Heq.
    cbn [String.length all_chars String.get]. rewrite Hlen, Hc, Haz.
    repeat split; eauto.
    exists c1. split; [ | assumption ].
    replace (S (S j) - 1)%nat with (S j) by lia. cbn [String.get].
    replace (S j - 1)%nat with j in Hc1 by lia. exact Hc1.
Qed.

Lemma try_len_sound s j tok :
  (j <= run_length s)%nat ->
  try_len s j = Some tok ->
  exists q,
    s = (tok ++ q)%string /\
    all_chars is_az tok = true /\
    (3 <= String.length tok)%nat /\
    word (first_char q) = false /\
    (exists c, first_char s = Some c /\ is_az c = true).
Proof.
  induction j as [| j IH]; intros Hj; cbn [try_len]; [ discriminate | ].
  destruct ((3 <=? S j)%nat && boundary (String.get j s) (String.get (S j) s)) eqn:Hb.
  - intros [= <-]. apply andb_prop in Hb as [H3 Hb]. apply Nat.leb_le in H3.
    destruct (run_prefix s (S j)) as (q & Heq & Hlen & Haz & Hget & (c & Hc & Hcaz) & Hfirst);
      [ lia | ].
    exists q. repeat split; auto; try lia.
    replace (S j - 1)%nat with j in Hc by lia.
    rewrite Hc, Hget in Hb. unfold boundary in Hb. simpl in Hb.
    rewrite (is_az_word _ Hcaz) in Hb. simpl in Hb.
    now destruct (word (first_char q)).
  - intros H. apply IH; [ lia | assumption ].
Qed.

Lemma match_here_sound before s tok :
  match_here before s = Some tok ->
  exists q,
    s = (tok ++ q)%string /\
    all_chars is_az tok = true /\
    (3 <= String.length tok)%nat /\
    word before = false /\
    word (first_char q) = false.
Proof.
  unfold match_here. destruct (boundary before (first_char s)) eqn:Hb; [ | discriminate ].
  intros H. destruct (try_len_sound s _ tok (Nat.le_refl _) H)
    as (q & Heq & Haz & H3 & Hq & c & Hc & Hcaz).
  exists q. repeat split; auto.
  rewrite Hc in Hb. unfold boundary in Hb. simpl in Hb.
  rewrite (is_az_word _ Hcaz) in Hb. now destruct (word before).
Qed.

Lemma last_char_cons c p : exists d, last_char (String c p) = Some d.
Proof.
  revert c. induction p as [| c' p IH]; intros c; [ now exists c | ].
  destruct (IH c') as [d Hd]. exists d. rewrite <- Hd. reflexivity.
Qed.

Lemma last_or_cons before c p : last_or before (String c p) = last_or (Some c) p.
Proof.
  unfold last_or. destruct p as [| c' p']; [ reflexivity | ].
  destruct (last_char_cons c' p') as [d Hd].
  change (last_char (String c (String c' p'))) with (last_char (String c' p')).
  now rewrite Hd.
Qed.

Lemma scan_sound s : forall skip before tok,
  In tok (scan skip before s) ->
  exists p q,
    s = (p ++ tok ++ q)%string /\
    all_chars is_az tok = true /\
    (3 <= String.length tok)%nat /\
    word (last_or before p) = false /\
    word (first_char q) = false.
Proof.
  induction s as [| c r IH]; intros skip before tok Hin; simpl in Hin; [ contradiction | ].
  assert (Hrest : forall k, In tok (scan k (Some c) r) ->
    exists p q, String c r = (p ++ tok ++ q)%string /\ all_chars is_az tok = true /\
                (3 <= String.length tok)%nat /\ word (last_or before p) = false /\
                word (first_char q) = false).
  { intros k Hk. destruct (IH _ _ _ Hk) as (p & q & Heq & Haz & H3 & Hp & Hq).
    exists (String c p), q. rewrite last_or_cons. simpl. rewrite <- Heq. auto. }
  destruct skip as [| k]; [ | eauto ].
  destruct (match_here before (String c r)) as [tok0 |] eqn:Hm; [ | eauto ].
  destruct Hin as [<- | Hin]; [ | eauto ].
  destruct (match_here_sound _ _ _ Hm) as (q & Heq & Haz & H3 & Hb & Hq).
  exists "", q. simpl. auto.
Qed.

Lemma findall_sound text tok :
  In tok (findall text) -> token_of text tok.
Proof.
  intros H. destruct (scan_sound _ _ _ _ H) as (p & q & Heq & Haz & H3 & Hp & Hq).
  exists p, q. repeat split; auto using not_word_not_alpha.
  apply not_word_not_alpha. unfold last_or in Hp. now destruct (last_char p).
Qed.

(** *** Counting and ranking *)

Lemma incr_keys w c k n :
  In (k, n) (incr w c) -> k = w \/ In k (map fst c).
Proof.
  induction c as [| [k' n'] c IH]; simpl.
  - intros [[= <- _] | []]. now left.
  - destruct (String.eqb_spec w k') as [-> | Hne]; simpl.
    + intros [[= <- _] | H]; [ now left | ]. right. right. now apply (in_map fst _ (k, n)).
    + intros [[= <- _] | H]; [ right; now left | ].
      destruct (IH H) as [-> | Hin]; [ now left | right; now right ].
Qed.

Lemma fold_incr_keys ws : forall c k n,
  In (k, n) (fold_left (fun c w => incr w c) ws c) -> In k ws \/ In k (map fst c).
Proof.
  induction ws as [| w ws IH]; intros c k n; simpl.
  - intros H. right. now apply (in_map fst _ (k, n)).
  - intros H. destruct (IH _ _ _ H) as [Hin | Hin]; [ left; now right | ].
    apply in_map_iff in Hin as ([k' n'] & Hk & Hin). simpl in Hk. subst k'.
    destruct (incr_keys _ _ _ _ Hin) as [-> | Hc]; [ left; now left | now right ].
Qed.

Lemma Counter_keys ws k n : In (k, n) (Counter ws) -> In k ws.
Proof.
  intros H. destruct (fold_incr_keys _ _ _ _ H) as [Hin | []]. exact Hin.
Qed.

Lemma insert_desc_perm x l : Permutation (insert_desc x l) (x :: l).
Proof.
  induction l as [| y r IH]; simpl; [ reflexivity | ].
  destruct (snd y <=? snd x)%Z; [ reflexivity | ].
  rewrite IH. apply perm_swap.
Qed.

Lemma sort_desc_perm l : Permutation (sort_desc l) l.
Proof.
  induction l as [| x l IH]; simpl; [ reflexivity | ].
  unfold sort_desc in *. simpl. rewrite insert_desc_perm. now constructor.
Qed.

Lemma insert_desc_sorted x l :
  StronglySorted falling l -> StronglySorted falling (insert_desc x l).
Proof.
  induction 1 as [| y r Hr IH Hy]; simpl; [ repeat constructor | ].
  destruct (snd y <=? snd x)%Z eqn:Hc.
  - apply Z.leb_le in Hc. constructor; [ now constructor | ].
    constructor; [ exact Hc | ].
    eapply Forall_impl; [ exact Hy | ]. unfold falling. intros; lia.
  - apply Z.leb_gt in Hc. constructor; [ exact IH | ].
    rewrite insert_desc_perm. constructor; [ unfold falling; lia | exact Hy ].
Qed.

Lemma sort_desc_sorted l : StronglySorted falling (sort_desc l).
Proof.
  induction l as [| x l IH]; [ constructor | ].
  unfold sort_desc in *. simpl. now apply insert_desc_sorted.
Qed.

Lemma In_take {A} (x : A) n l : In x (take n l) -> In x l.
Proof.
  revert l. induction n as [| n IH]; intros [| y l]; simpl; try tauto.
  intros [-> | H]; [ now left | right; auto ].
Qed.

Lemma most_common_subset n c x : In x (most_common n c) -> In x c.
Proof.
  unfold most_common. destruct (n <=? 0)%Z; [ intros [] | ].
  intros H. apply In_take in H.
  eapply Permutation_in; [ apply sort_desc_perm | exact H ].
Qed.

(** C4.  Every keyword that is returned stands in the lower-cased text of one
    of the records as a run of at least three letters [a-z], with no letter
    right before it and none right after it, and is not a stop word. *)
Theorem extracted_keywords_are_tokens (responses : list value) (top_n : Z)
    (kw : string) (n : Z) :
  In (kw, n) (extract_keywords_from_reviews responses top_n) ->
  exists kvs,
    In (Dict kvs) responses /\
    token_of (lower (_get_review_text kvs)) kw /\
    ~ In kw STOPWORDS.
Proof.
  unfold extract_keywords_from_reviews. intros H.
  apply most_common_subset, Counter_keys in H.
  apply in_flat_map in H as (r & Hr & Hw).
  destruct r as [a | xs | kvs]; cbn [words_of] in Hw; try contradiction.
  exists kvs. split; [ exact Hr | ].
  destruct (is_empty (_get_review_text kvs)); [ contradiction | ].
  apply filter_In in Hw as [Hf Hs]. split.
  - now apply findall_sound.
  - intros Hin. apply mem_In in Hin. rewrite Hin in Hs. discriminate.
Qed.

Lemma extracted_keywords_are_tokens_witness :
  exists kvs,
    In (Dict kvs) [great_glasses] /\
    token_of (lower (_get_review_text kvs)) "glasses" /\
    ~ In "glasses" STOPWORDS.
Proof.
  apply (extracted_keywords_are_tokens [great_glasses] 25 "glasses" 1).
  vm_compute. right. left. reflexivity.
Defined.

(** The scenario of the specification: lower-cased, in first-seen order. *)
Example keywords_of_great_glasses :
  extract_keywords_from_reviews [great_glasses] 25 = [("great", 1); ("glasses", 1)].
Proof. reflexivity. Qed.

(** The pattern's [\b] wants a non-word character on each side: a run that
    touches a digit or an underscore is not matched at all. *)
Example run_next_to_a_digit_is_not_matched :
  findall "abc123 co2 quick_brown fox" = ["fox"].
Proof. reflexivity. Qed.

(** ** The fallback of the keyword block *)

Lemma distinct_snoc ws w :
  distinct (ws ++ [w]) = if mem w (distinct ws) then distinct ws else distinct ws ++ [w].
Proof. unfold distinct. now rewrite fold_left_app. Qed.

Lemma In_distinct ws k : In k (distinct ws) <-> In k ws.
Proof.
  induction ws as [| w ws IH] using rev_ind; [ reflexivity | ].
  rewrite distinct_snoc, in_app_iff. simpl.
  destruct (mem w (distinct ws)) eqn:Hm.
  - apply mem_In in Hm. rewrite IH. split; [ tauto | ].
    intros [H | [<- | []]]; [ assumption | ]. now apply IH.
  - rewrite in_app_iff, IH. simpl. tauto.
Qed.

Lemma NoDup_distinct ws : NoDup (distinct ws).
Proof.
  induction ws as [| w ws IH] using rev_ind; [ constructor | ].
  rewrite distinct_snoc. destruct (mem w (distinct ws)) eqn:Hm; [ exact IH | ].
  apply NoDup_app. split; [ exact IH | ]. split.
  - intros x Hx Hw. apply list_elem_of_In in Hx, Hw. destruct Hw as [<- | []].
    apply mem_In in Hx. congruence.
  - repeat constructor. intros H. apply list_elem_of_In in H. destruct H.
Qed.

Lemma occurrences_snoc k ws w :
  occurrences k (ws ++ [w]) = (occurrences k ws + (if String.eqb k w then 1 else 0))%Z.
Proof.
  unfold occurrences. rewrite count_occ_app. simpl.
  destruct (string_dec w k) as [-> | Hne].
  - rewrite String.eqb_refl. lia.
  - destruct (String.eqb_spec k w); [ congruence | lia ].
Qed.

Lemma occurrences_absent k ws : ~ In k ws -> occurrences k ws = 0%Z.
Proof.
  intros H. unfold occurrences. apply (count_occ_not_In string_dec) in H. now rewrite H.
Qed.

Lemma incr_absent w (g : string -> Z) D :
  ~ In w D -> incr w (map (fun k => (k, g k)) D) = map (fun k => (k, g k)) D ++ [(w, 1%Z)].
Proof.
  induction D as [| k D IH]; simpl; [ reflexivity | ].
  intros H. destruct (String.eqb_spec w k) as [-> | Hne]; [ tauto | ].
  rewrite IH by tauto. reflexivity.
Qed.

Lemma incr_present w (g : string -> Z) D :
  NoDup D -> In w D ->
  incr w (map (fun k => (k, g k)) D) =
    map (fun k => (k, if String.eqb k w then (g k + 1)%Z else g k)) D.
Proof.
  induction 1 as [| k D Hk HD IH]; simpl; [ intros [] | ].
  apply list_elem_of_In in Hk || idtac.
  intros Hin. destruct (String.eqb_spec w k) as [-> | Hne].
  - rewrite String.eqb_refl. f_equal.
    apply map_ext_in. intros k' Hk'.
    destruct (String.eqb_spec k' k) as [-> | ]; [ | reflexivity ].
    exfalso. apply Hk. now apply list_elem_of_In.
  - destruct (String.eqb_spec k w); [ congruence | ].
    rewrite IH by (destruct Hin; [ congruence | assumption ]). reflexivity.
Qed.

Lemma Counter_tally ws : Counter ws = tally ws.
Proof.
  unfold Counter, tally. induction ws as [| w ws IH] using rev_ind; [ reflexivity | ].
  rewrite fold_left_app. cbn [fold_left]. rewrite IH, distinct_snoc.
  destruct (mem w (distinct ws)) eqn:Hm.
  - apply mem_In in Hm.
    rewrite (incr_present w (fun k => occurrences k ws)) by (auto using NoDup_distinct).
    apply map_ext. intros k. rewrite occurrences_snoc.
    destruct (String.eqb k w); f_equal; lia.
  - assert (Hnin : ~ In w (distinct ws)) by (intros H; apply mem_In in H; congruence).
    rewrite (incr_absent w (fun k => occurrences k ws)) by assumption.
    rewrite map_app. cbn [map]. f_equal.
    + apply map_ext_in. intros k Hk. rewrite occurrences_snoc.
      destruct (String.eqb_spec k w) as [-> | ]; [ tauto | f_equal; lia ].
    + rewrite occurrences_snoc, String.eqb_refl, occurrences_absent; [ reflexivity | ].
      now rewrite <- In_distinct.
Qed.

Lemma tally_labels_run v c :
  iterable v = true ->
  tally_labels v c = Ok (fold_left (fun c w => incr w c) (labels_in v) c).
Proof.
  unfold iterable, tally_labels, labels_in, items.
  destruct (iter v) as [ts | e]; [ intros _ | discriminate ]. simpl. f_equal.
  revert c. induction ts as [| t ts IH]; intros c; simpl; [ reflexivity | ].
  destruct (truthy t); simpl; apply IH.
Qed.

Lemma theme_counts_run records : forall c,
  forallb labels_iterable records = true ->
  theme_counts records c = Ok (fold_left (fun c w => incr w c) (all_labels records) c).
Proof.
  induction records as [| r records IH]; intros c H; simpl; [ reflexivity | ].
  simpl in H. apply andb_prop in H as [Hr Hrest].
  destruct r as [a | xs | kvs]; simpl; auto.
  simpl in Hr. apply andb_prop in Hr as [Ht Hc].
  rewrite (tally_labels_run _ _ Ht). simpl.
  rewrite (tally_labels_run _ _ Hc). simpl.
  rewrite IH by assumption. now rewrite !fold_left_app.
Qed.

(** C5.  When the extraction yields no keyword, the block returns the first
    [n] entries, [n] the slider's value kept within 10 and 50, of a ranking
    by falling count of the tally of the theme and concern labels of the
    same records, each label title-cased with underscores turned to
    spaces. *)
Theorem fallback_is_label_tally (filtered : list value) (top_kw : Z) :
  extract_keywords_from_reviews filtered (Z.max 10 (Z.min 50 top_kw)) = [] ->
  forallb labels_iterable filtered = true ->
  exists ranked,
    keywords_or_fallback filtered top_kw
      = Ok (take (Z.to_nat (Z.max 10 (Z.min 50 top_kw))) ranked) /\
    Permutation ranked (tally (all_labels filtered)) /\
    StronglySorted falling ranked.
Proof.
  intros Hnone Hit. exists (sort_desc (tally (all_labels filtered))).
  split; [ | split; [ apply sort_desc_perm | apply sort_desc_sorted ] ].
  unfold keywords_or_fallback. cbv zeta. rewrite Hnone. cbn [is_nil].
  rewrite (theme_counts_run _ _ Hit). simpl.
  change (fold_left (fun c w => incr w c) (all_labels filtered) [])
    with (Counter (all_labels filtered)).
  now rewrite Counter_tally.
Qed.

Lemma fallback_is_label_tally_witness :
  exists ranked,
    keywords_or_fallback [labelled_only] 25
      = Ok (take (Z.to_nat (Z.max 10 (Z.min 50 25))) ranked) /\
    Permutation ranked (tally (all_labels [labelled_only])) /\
    StronglySorted falling ranked.
Proof.
  apply (fallback_is_label_tally [labelled_only] 25); reflexivity.
Defined.

Example fallback_of_labelled_only :
  keywords_or_fallback [labelled_only] 25 = Ok [("Design", 2); ("Camera Quality", 1)].
Proof. reflexivity. Qed.

(** ** The chart aggregator *)

Lemma has_count_get kvs k c :
  has_count kvs k c -> get kvs k (Atom (AInt 0)) = Atom (AInt c).
Proof.
  unfold has_count, get. destruct (lookup k kvs); [ auto | now intros -> ].
Qed.

(** C3.  For a summary whose three counts are integers that are not
    negative, absent ones read as 0: when all three are 0 the pie gets
    (1, 1, 1); when one of them is not 0 it gets the three counts as they
    are. *)
Theorem sentiment_split_degenerate (kvs : list (string * value)) (p n g : Z) :
  has_count kvs "positiveCount" p ->
  has_count kvs "neutralCount" n ->
  has_count kvs "negativeCount" g ->
  0 <= p -> 0 <= n -> 0 <= g ->
  (p = 0 /\ n = 0 /\ g = 0 ->
   sentiment_split (Dict kvs) = Ok (Atom (AInt 1), Atom (AInt 1), Atom (AInt 1))) /\
  (p <> 0 \/ n <> 0 \/ g <> 0 ->
   sentiment_split (Dict kvs) = Ok (Atom (AInt p), Atom (AInt n), Atom (AInt g))).
Proof.
  intros Hp Hn Hg Hp0 Hn0 Hg0.
  unfold sentiment_split.
  rewrite (has_count_get _ _ _ Hp), (has_count_get _ _ _ Hn), (has_count_get _ _ _ Hg).
  cbn [add as_num add_num of_num bind eq_zero].
  split.
  - intros (-> & -> & ->). reflexivity.
  - intros Hnz. destruct (p + n + g =? 0) eqn:Hz; [ | reflexivity ].
    apply Z.eqb_eq in Hz. lia.
Qed.

Lemma sentiment_split_degenerate_witness :
  (3 = 0 /\ 1 = 0 /\ 0 = 0 ->
   sentiment_split (Dict [("positiveCount", Atom (AInt 3)); ("neutralCount", Atom (AInt 1))])
   = Ok (Atom (AInt 1), Atom (AInt 1), Atom (AInt 1))) /\
  (3 <> 0 \/ 1 <> 0 \/ 0 <> 0 ->
   sentiment_split (Dict [("positiveCount", Atom (AInt 3)); ("neutralCount", Atom (AInt 1))])
   = Ok (Atom (AInt 3), Atom (AInt 1), Atom (AInt 0))).
Proof.
  apply (sentiment_split_degenerate
           [("positiveCount", Atom (AInt 3)); ("neutralCount", Atom (AInt 1))] 3 1 0);
    first [ reflexivity | lia ].
Defined.

(** The code tests the sum of the three counts: outside the data model, a
    negative count can bring it to 0. *)
Example sentiment_split_tests_the_sum :
  sentiment_split (Dict [("positiveCount", Atom (AInt 1)); ("neutralCount", Atom (AInt (-1)))])
  = Ok (Atom (AInt 1), Atom (AInt 1), Atom (AInt 1)).
Proof. reflexivity. Qed.

(** C8 fails on the code: without a source breakdown in the summary, a record
    whose source is "twitter", and a record with no source at all, are both
    counted under "Google News", where the rule for summary source names
    gives "Twitter" and "Other". *)
Theorem derived_source_name_is_two_way :
  source_series (Dict []) [Dict [("source", Atom (AStr "twitter"))]]
    = Ok [("Google News", Atom (AInt 1))] /\
  source_label (Atom (AStr "twitter")) = "Twitter" /\
  source_series (Dict []) [Dict [("headline", Atom (AStr "x"))]]
    = Ok [("Google News", Atom (AInt 1))] /\
  source_label (Atom (AStr "Other")) = "Other".
Proof. repeat split; reflexivity. Qed.

(** The sibling path, for comparison: the same name under the summary's
    own breakdown, and a record whose feed type names Amazon. *)
Example summary_source_names :
  source_series (Dict [("sourceBreakdown", Dict [("twitter", Atom (AInt 1))])]) []
    = Ok [("Twitter", Atom (AInt 1))] /\
  source_series (Dict []) [Dict [("feed_type", Atom (AStr "amazon_csv"))]; Dict []]
    = Ok [("Amazon Reviews", Atom (AInt 1)); ("Google News", Atom (AInt 1))].
Proof. split; reflexivity. Qed.

(** ** Scenarios of the specification *)

Example normalize_empty_sequence :
  normalize 3 (List []) = Ok (Some (Dict (default_summary 0), List [])).
Proof. reflexivity. Qed.

Example scenario_filter_positive :
  _filter_responses [great_glasses] (Some "positive") (Some "") = Ok [great_glasses].
Proof. reflexivity. Qed.

Example scenario_charts :
  build_all_charts
    (Dict [("positiveCount", Atom (AInt 3)); ("neutralCount", Atom (AInt 1));
           ("negativeCount", Atom (AInt 0))])
    [great_glasses]
  = Ok {| sentimentSplit := (Atom (AInt 3), Atom (AInt 1), Atom (AInt 0));
          bySource := [("Google News", Atom (AInt 1))] |}.
Proof. reflexivity. Qed.

(** * Further properties of the code *)

(** ** The record filter *)

Lemma filter_sublist {A} (p : A -> bool) (l : list A) : sublist (List.filter p l) l.
Proof.
  induction l as [| x l IH]; simpl; [ constructor | ].
  destruct (p x); now constructor.
Qed.

Lemma filter_r_sublist {A} (p : A -> result bool) (l out : list A) :
  filter_r p l = Ok out ->
  sublist out l /\ Forall (fun x => p x = Ok true) out.
Proof.
  revert out. induction l as [| x l IH]; simpl; intros out H.
  - injection H as <-. split; constructor.
  - destruct (p x) as [b | e] eqn:Hp; [ | discriminate ].
    simpl in H. destruct (filter_r p l) as [r' | e]; [ | discriminate ].
    simpl in H. injection H as <-. destruct (IH _ eq_refl) as [Hs Hf].
    destruct b; split; try (now constructor); auto.
Qed.

Lemma keep_sentiment_record lab r : keep_sentiment lab r = true -> is_record r = true.
Proof. now destruct r. Qed.

Lemma keep_theme_record key r : keep_theme key r = Ok true -> is_record r = true.
Proof. destruct r; simpl; congruence. Qed.

(** X1.  Whenever [_filter_responses] returns, what it returns is a subsequence of
    its input: entries of the input, in the order of the input, none twice.
    As soon as one of the two filters is provided, every entry that is kept
    is a record. *)
Theorem filter_returns_subsequence (responses out : list value) (s t : option string) :
  _filter_responses responses s t = Ok out ->
  sublist out responses /\
  (provided s <> None \/ provided t <> None -> Forall (fun r => is_record r = true) out).
Proof.
  unfold _filter_responses.
  destruct (is_nil responses) eqn:Hn.
  { intros [= <-]. split; [ apply sublist_nil_l | intros _; constructor ]. }
  destruct (provided s) as [s' |], (provided t) as [t' |]; intros H.
  - apply filter_r_sublist in H as [Hsub Hall]. split.
    + etransitivity; [ exact Hsub | apply filter_sublist ].
    + intros _. eapply Forall_impl; [ exact Hall | ]. intros r. apply keep_theme_record.
  - injection H as <-. split; [ apply filter_sublist | ].
    intros _. apply Forall_forall. intros r Hr. apply list_elem_of_In, filter_In in Hr as [_ Hr].
    now apply keep_sentiment_record in Hr.
  - apply filter_r_sublist in H as [Hsub Hall]. split; [ exact Hsub | ].
    intros _. eapply Forall_impl; [ exact Hall | ]. intros r. apply keep_theme_record.
  - injection H as <-. split; [ reflexivity | ]. intros [H | H]; congruence.
Qed.

Lemma filter_returns_subsequence_witness :
  sublist [great_glasses] [Atom (AInt 5); great_glasses; battery_complaint] /\
  (provided (Some "positive") <> None \/ provided None <> None ->
   Forall (fun r => is_record r = true) [great_glasses]).
Proof.
  apply (filter_returns_subsequence [Atom (AInt 5); great_glasses; battery_complaint]
           [great_glasses] (Some "positive") None).
  reflexivity.
Defined.

Lemma keep_theme_raise key r e :
  keep_theme key r = Raise e <-> themes_iterable r = false /\ e = TypeError.
Proof.
  destruct r as [a | xs | kvs]; simpl; try (split; [ discriminate | intros [? _]; discriminate ]).
  unfold iterable.
  destruct (or_else (field kvs "ai_themes") (List [])) as [[ | b | n | x | s] | ys | ds];
    simpl; split; try discriminate; try (intros [? _]; discriminate);
    try (intros [= <-]; auto); try (intros [_ ->]; reflexivity).
Qed.

Lemma filter_r_raise (p : value -> result bool) (l : list value) :
  forall e, filter_r p l = Raise e -> exists r, In r l /\ exists e', p r = Raise e'.
Proof.
  induction l as [| x l IH]; simpl; intros e; [ discriminate | ].
  destruct (p x) as [b | e0] eqn:Hp; simpl.
  - destruct (filter_r p l) as [r' | e1]; simpl; [ discriminate | ].
    intros _. destruct (IH e1 eq_refl) as (r & Hr & He). eauto.
  - intros _. exists x. eauto.
Qed.

Lemma filter_r_keep_theme key (l : list value) :
  (exists out, filter_r (keep_theme key) l = Ok out) \/
  filter_r (keep_theme key) l = Raise TypeError.
Proof.
  induction l as [| x l IH]; simpl; [ left; eauto | ].
  destruct (keep_theme key x) as [b | e] eqn:Hx; simpl.
  - destruct IH as [[out ->] | ->]; simpl; [ left; eauto | now right ].
  - apply keep_theme_raise in Hx as [_ ->]. now right.
Qed.

Lemma filter_r_ok_all (p : value -> result bool) (l out : list value) :
  filter_r p l = Ok out -> forall r, In r l -> exists b, p r = Ok b.
Proof.
  revert out. induction l as [| x l IH]; simpl; intros out H r; [ intros [] | ].
  destruct (p x) as [b | e] eqn:Hp; [ | discriminate ]. simpl in H.
  destruct (filter_r p l) as [r' | e]; [ | discriminate ].
  intros [<- | Hr]; [ eauto | eapply IH; eauto ].
Qed.

Lemma filter_responses_shape responses s t :
  _filter_responses responses s t =
    match provided t with
    | Some t' => filter_r (keep_theme (canon t')) (after_sentiment s responses)
    | None => Ok (after_sentiment s responses)
    end.
Proof.
  unfold _filter_responses, after_sentiment, canon.
  rewrite (filter_ext _ _ (fun r => keep_sentiment_spec _ r)) || idtac.
  destruct responses as [| r0 rs].
  - cbn [is_nil]. destruct (provided s), (provided t); reflexivity.
  - cbn [is_nil]. destruct (provided s) as [s' |]; [ | reflexivity ].
    rewrite (filter_ext (fun r => keep_sentiment (lower (strip s')) r)
               (has_sentiment (lower (strip s')))); [ reflexivity | ].
    intros r. apply keep_sentiment_spec.
Qed.

(** X2.  [_filter_responses] raises exactly when a theme filter is provided and
    one of the entries that pass the sentiment filter is a record whose
    [ai_themes] is truthy and cannot be iterated (a nonzero number, [True]);
    what it raises is [TypeError]. *)
Theorem filter_raises_only_on_unreadable_themes (responses : list value)
    (s t : option string) :
  ((exists e, _filter_responses responses s t = Raise e) <->
   provided t <> None /\
   exists r, In r (after_sentiment s responses) /\ themes_iterable r = false) /\
  (forall e, _filter_responses responses s t = Raise e -> e = TypeError).
Proof.
  rewrite filter_responses_shape.
  destruct (provided t) as [t' |].
  - split.
    + split.
      * intros [e He]. split; [ discriminate | ].
        destruct (filter_r_raise _ _ _ He) as (r & Hr & e' & He').
        exists r. split; [ exact Hr | ]. now apply keep_theme_raise in He'.
      * intros [_ (r & Hr & Hit)].
        destruct (filter_r_keep_theme (canon t') (after_sentiment s responses))
          as [[out Hout] | Hraise]; [ | eauto ].
        destruct (filter_r_ok_all _ _ _ Hout r Hr) as [b Hb].
        destruct r as [a | xs | kvs]; try discriminate.
        exfalso. assert (Hr' : keep_theme (canon t') (Dict kvs) = Raise TypeError).
        { apply keep_theme_raise. auto. }
        congruence.
    + intros e He.
      destruct (filter_r_keep_theme (canon t') (after_sentiment s responses))
        as [[out Hout] | Hraise]; congruence.
  - split; [ split | ].
    + intros [e He]. discriminate.
    + intros [H _]. congruence.
    + intros e He. discriminate.
Qed.

Lemma filter_all_true {A} (p : A -> bool) (l : list A) :
  (forall x, In x l -> p x = true) -> List.filter p l = l.
Proof.
  induction l as [| x l IH]; simpl; intros H; [ reflexivity | ].
  rewrite (H x) by now left. f_equal. apply IH. intros y Hy. apply H. now right.
Qed.

Lemma filter_r_all_true {A} (p : A -> result bool) (l : list A) :
  Forall (fun x => p x = Ok true) l -> filter_r p l = Ok l.
Proof.
  induction 1 as [| x l Hx Hl IH]; simpl; [ reflexivity | ].
  now rewrite Hx, IH.
Qed.

(** X3.  Filtering the result of [_filter_responses] again with the same two
    arguments returns it unchanged. *)
Theorem filter_is_idempotent (responses out : list value) (s t : option string) :
  _filter_responses responses s t = Ok out ->
  _filter_responses out s t = Ok out.
Proof.
  rewrite !filter_responses_shape. unfold after_sentiment.
  destruct (provided s) as [s' |] eqn:Hs, (provided t) as [t' |] eqn:Ht; intros H.
  - destruct (filter_r_sublist _ _ _ H) as [Hsub Hall].
    rewrite filter_all_true; [ now apply filter_r_all_true | ].
    intros r Hr. apply list_elem_of_In in Hr.
    apply (sublist_subseteq _ _ Hsub) in Hr.
    apply list_elem_of_In, filter_In in Hr. tauto.
  - injection H as <-. f_equal. apply filter_all_true.
    intros r Hr. apply filter_In in Hr. tauto.
  - destruct (filter_r_sublist _ _ _ H) as [Hsub Hall]. now apply filter_r_all_true.
  - reflexivity.
Qed.

Lemma filter_is_idempotent_witness :
  _filter_responses [great_glasses] (Some "positive") (Some "camera_quality")
    = Ok [great_glasses].
Proof.
  apply (filter_is_idempotent [Atom (AInt 5); great_glasses; battery_complaint]
           [great_glasses] (Some "positive") (Some "camera_quality")).
  reflexivity.
Defined.

(** ** Ranking the keywords *)

Lemma extract_unfold responses n :
  extract_keywords_from_reviews responses n =
    if n <=? 0 then [] else take (Z.to_nat n) (sort_desc (tally (all_words responses))).
Proof.
  unfold extract_keywords_from_reviews, most_common, all_words. now rewrite Counter_tally.
Qed.

Lemma tally_keys ws : map fst (tally ws) = distinct ws.
Proof. unfold tally. rewrite map_map. simpl. apply map_id. Qed.

Lemma In_tally ws k c : In (k, c) (tally ws) <-> In k ws /\ c = occurrences k ws.
Proof.
  unfold tally. rewrite in_map_iff. split.
  - intros (k' & Heq & Hk). injection Heq as -> <-. apply (proj1 (In_distinct _ _)) in Hk. auto.
  - intros [Hk ->]. exists k. split; [ reflexivity | now apply In_distinct ].
Qed.

Lemma occurrences_positive k ws : In k ws -> 1 <= occurrences k ws.
Proof.
  intros H. unfold occurrences. apply (count_occ_In string_dec) in H. lia.
Qed.

Lemma StronglySorted_take {A} (R : A -> A -> Prop) n (l : list A) :
  StronglySorted R l -> StronglySorted R (take n l).
Proof.
  intros H. revert n. induction H as [| x l Hl IH Hx]; intros [| n]; simpl; try constructor.
  - apply IH.
  - apply Forall_forall. intros y Hy. rewrite Forall_forall in Hx. apply Hx.
    apply (sublist_subseteq _ _ (sublist_take l n)). exact Hy.
Qed.

(** X4.  The list [extract_keywords_from_reviews] returns has at most [top_n]
    entries, no word twice, counts that never rise from one entry to the
    next, and beside each word the number of times it occurs among the
    qualifying words of all records, which is at least 1. *)
Theorem keywords_are_ranked (responses : list value) (top_n : Z) :
  (length (extract_keywords_from_reviews responses top_n) <= Z.to_nat top_n)%nat /\
  NoDup (map fst (extract_keywords_from_reviews responses top_n)) /\
  StronglySorted falling (extract_keywords_from_reviews responses top_n) /\
  (forall kw c, In (kw, c) (extract_keywords_from_reviews responses top_n) ->
                c = occurrences kw (all_words responses) /\ 1 <= c).
Proof.
  rewrite extract_unfold. destruct (top_n <=? 0) eqn:Hn.
  { split; [ simpl; lia | ]. split; [ simpl; constructor | ].
    split; [ constructor | intros kw c [] ]. }
  set (L := sort_desc (tally (all_words responses))).
  assert (HL : Permutation L (tally (all_words responses))) by apply sort_desc_perm.
  repeat split.
  - rewrite length_take. lia.
  - apply (sublist_NoDup _ (map fst L)).
    + assert (Hp : Permutation (map fst L) (map fst (tally (all_words responses))))
        by (now apply Permutation_map).
      rewrite Hp, tally_keys. apply NoDup_distinct.
    + rewrite <- firstn_map. apply sublist_take.
  - apply StronglySorted_take, sort_desc_sorted.
  - apply In_take in H. eapply Permutation_in in H; [ | exact HL ].
    now apply In_tally in H.
  - apply In_take in H. eapply Permutation_in in H; [ | exact HL ].
    apply In_tally in H as [Hk ->]. now apply occurrences_positive.
Qed.

Lemma sorted_app_falling (l1 l2 : list (string * Z)) :
  StronglySorted falling (l1 ++ l2) ->
  forall a b, In a l1 -> In b l2 -> falling a b.
Proof.
  induction l1 as [| x l1 IH]; simpl; intros H a b Ha Hb; [ contradiction | ].
  apply StronglySorted_inv in H as [Hs Hx].
  destruct Ha as [<- | Ha]; [ | eauto ].
  rewrite Forall_forall in Hx. apply Hx. apply list_elem_of_In, in_or_app. now right.
Qed.

(** X5.  A qualifying word is left out of the result only when the result is
    full ([top_n] entries) and every entry in it has at least as many
    occurrences as the word. *)
Theorem keywords_cut_off_by_count (responses : list value) (top_n : Z) (w : string) :
  In w (all_words responses) ->
  In w (map fst (extract_keywords_from_reviews responses top_n)) \/
  (length (extract_keywords_from_reviews responses top_n) = Z.to_nat top_n /\
   forall kw c, In (kw, c) (extract_keywords_from_reviews responses top_n) ->
                occurrences w (all_words responses) <= c).
Proof.
  intros Hw. rewrite extract_unfold. destruct (top_n <=? 0) eqn:Hn.
  { right. apply Z.leb_le in Hn. split; [ simpl; lia | intros kw c [] ]. }
  set (L := sort_desc (tally (all_words responses))).
  assert (HL : In (w, occurrences w (all_words responses)) L).
  { eapply Permutation_in; [ symmetry; apply sort_desc_perm | ]. now apply In_tally. }
  rewrite <- (take_drop (Z.to_nat top_n) L) in HL.
  apply in_app_or in HL as [Hin | Hin].
  - left. now apply (in_map fst) in Hin.
  - right. split.
    + rewrite length_take. apply Nat.min_l.
      destruct (Nat.le_gt_cases (Z.to_nat top_n) (length L)) as [Hle | Hgt]; [ exact Hle | ].
      rewrite drop_ge in Hin by lia. destruct Hin.
    + intros kw c Hk.
      assert (Hsorted : StronglySorted falling (take (Z.to_nat top_n) L ++ drop (Z.to_nat top_n) L))
        by (rewrite take_drop; apply sort_desc_sorted).
      exact (sorted_app_falling _ _ Hsorted _ _ Hk Hin).
Qed.

Lemma keywords_cut_off_by_count_witness :
  In "glasses" (map fst (extract_keywords_from_reviews [great_glasses] 1)) \/
  (length (extract_keywords_from_reviews [great_glasses] 1) = Z.to_nat 1 /\
   forall kw c, In (kw, c) (extract_keywords_from_reviews [great_glasses] 1) ->
                occurrences "glasses" (all_words [great_glasses]) <= c).
Proof.
  apply (keywords_cut_off_by_count [great_glasses] 1 "glasses").
  vm_compute. right. left. reflexivity.
Defined.

Lemma insert_desc_with_count c x l :
  with_count c (insert_desc x l) = with_count c (x :: l).
Proof.
  unfold with_count. induction l as [| y r IH]; [ reflexivity | ].
  cbn [insert_desc]. destruct (snd y <=? snd x) eqn:Hc; [ reflexivity | ].
  apply Z.leb_gt in Hc. cbn [List.filter] in *. rewrite IH.
  destruct (snd x =? c) eqn:Hx, (snd y =? c) eqn:Hy; try reflexivity.
  apply Z.eqb_eq in Hx, Hy. lia.
Qed.

Lemma sort_desc_with_count c l : with_count c (sort_desc l) = with_count c l.
Proof.
  induction l as [| x l IH]; [ reflexivity | ].
  unfold sort_desc in *. cbn [fold_right]. rewrite insert_desc_with_count.
  unfold with_count in *. cbn [List.filter]. now rewrite IH.
Qed.

(** X6.  Among the words with one and the same count, the result lists them in
    the order in which they first occur in the records, and leaves out only
    the later ones. *)
Theorem keyword_ties_keep_first_seen_order (responses : list value) (top_n c : Z) :
  exists later,
    with_count c (tally (all_words responses)) =
      with_count c (extract_keywords_from_reviews responses top_n) ++ later.
Proof.
  rewrite extract_unfold. destruct (top_n <=? 0); [ now eexists | ].
  exists (with_count c (drop (Z.to_nat top_n) (sort_desc (tally (all_words responses))))).
  unfold with_count. rewrite <- List.filter_app, take_drop.
  symmetry. apply sort_desc_with_count.
Qed.

(** X7.  Entries of the input that are not records add nothing: the keywords of
    a list are the keywords of its records. *)
Theorem keywords_ignore_non_records (responses : list value) (top_n : Z) :
  extract_keywords_from_reviews (List.filter is_record responses) top_n =
  extract_keywords_from_reviews responses top_n.
Proof.
  unfold extract_keywords_from_reviews. f_equal. f_equal.
  induction responses as [| r rs IH]; [ reflexivity | ].
  cbn [List.filter flat_map]. destruct r as [a | xs | kvs]; cbn [is_record flat_map].
  - exact IH.
  - exact IH.
  - now rewrite IH.
Qed.

(** ** The pattern finds every delimited run *)

Lemma run_length_token tok q :
  all_chars is_az tok = true -> word (first_char q) = false ->
  run_length (tok ++ q)%string = String.length tok.
Proof.
  intros Haz Hq. induction tok as [| c r IH]; simpl in *.
  - destruct q as [| d q']; [ reflexivity | ]. simpl in *.
    destruct (is_az d) eqn:Hd; [ | reflexivity ].
    apply is_az_word in Hd. congruence.
  - apply andb_prop in Haz as [Hc Hr]. rewrite Hc. f_equal. auto.
Qed.

Lemma get_after tok q : String.get (String.length tok) (tok ++ q)%string = first_char q.
Proof.
  induction tok as [| c r IH]; simpl; [ now destruct q | exact IH ].
Qed.

Lemma get_last tok q c :
  last_char tok = Some c ->
  String.get (String.length tok - 1) (tok ++ q)%string = Some c.
Proof.
  revert c. induction tok as [| d r IH]; intros c; [ discriminate | ].
  destruct r as [| d' r'].
  - simpl. intros [= <-]. reflexivity.
  - intros H. change (last_char (String d (String d' r'))) with (last_char (String d' r')) in H.
    specialize (IH c H). cbn [String.length].
    replace (S (S (String.length r')) - 1)%nat with (S (String.length r')) by lia.
    cbn [String.append String.get].
    cbn [String.length] in IH.
    replace (S (String.length r') - 1)%nat with (String.length r') in IH by lia.
    exact IH.
Qed.

Lemma substring_prefix tok q : substring 0 (String.length tok) (tok ++ q)%string = tok.
Proof.
  induction tok as [| c r IH]; simpl; [ now destruct q | now rewrite IH ].
Qed.

Lemma last_char_az tok c :
  all_chars is_az tok = true -> last_char tok = Some c -> is_az c = true.
Proof.
  revert c. induction tok as [| d r IH]; intros c Haz; [ discriminate | ].
  simpl in Haz. apply andb_prop in Haz as [Hd Hr].
  destruct r as [| d' r']; [ now intros [= <-] | ].
  intros H. change (last_char (String d (String d' r'))) with (last_char (String d' r')) in H.
  eauto.
Qed.

Lemma try_len_exact s j :
  (3 <= j)%nat ->
  boundary (String.get (j - 1) s) (String.get j s) = true ->
  try_len s j = Some (substring 0 j s).
Proof.
  destruct j as [| j']; [ lia | ]. intros H3 Hb. cbn [try_len].
  replace (S j' - 1)%nat with j' in Hb by lia.
  assert (H3' : (3 <=? S j')%nat = true) by (apply Nat.leb_le; lia).
  now rewrite H3', Hb.
Qed.

Lemma match_here_complete before tok q :
  word before = false ->
  all_chars is_az tok = true ->
  (3 <= String.length tok)%nat ->
  word (first_char q) = false ->
  match_here before (tok ++ q)%string = Some tok.
Proof.
  intros Hb Haz H3 Hq. unfold match_here.
  destruct tok as [| c r] eqn:Htok; [ simpl in H3; lia | ]. rewrite <- Htok in *.
  assert (Hc : is_az c = true) by (subst tok; simpl in Haz; now apply andb_prop in Haz).
  assert (Hfirst : first_char (tok ++ q)%string = Some c) by (now subst tok).
  rewrite Hfirst. unfold boundary at 1. simpl. rewrite Hb, (is_az_word _ Hc). simpl.
  rewrite (run_length_token _ _ Haz Hq).
  destruct (last_char_cons c r) as [d Hd]. rewrite <- Htok in Hd.
  rewrite try_len_exact; [ now rewrite substring_prefix | exact H3 | ].
  rewrite get_after, (get_last _ _ _ Hd). unfold boundary. simpl.
  now rewrite (is_az_word _ (last_char_az _ _ Haz Hd)), Hq.
Qed.

Lemma app_prefix_split (a b c d : string) :
  (a ++ b = c ++ d)%string -> (String.length c <= String.length a)%nat ->
  exists m, a = (c ++ m)%string.
Proof.
  revert a. induction c as [| x c IH]; intros a H Hlen; [ now exists a | ].
  destruct a as [| y a]; [ simpl in Hlen; lia | ].
  simpl in H. injection H as -> H. simpl in Hlen.
  destruct (IH a H) as [m ->]; [ lia | ]. now exists m.
Qed.

Lemma all_az_app a b :
  all_chars is_az (a ++ b)%string = true -> all_chars is_az a = true.
Proof.
  induction a as [| c a IH]; simpl; [ reflexivity | ].
  intros H. apply andb_prop in H as [Hc H]. rewrite Hc. auto.
Qed.

Lemma scan_complete p : forall skip before tok q,
  (skip <= String.length p)%nat ->
  word (last_or before p) = false ->
  all_chars is_az tok = true ->
  (3 <= String.length tok)%nat ->
  word (first_char q) = false ->
  In tok (scan skip before (p ++ tok ++ q)%string).
Proof.
  induction p as [| c p IH]; intros skip before tok q Hskip Hp Haz H3 Hq.
  - simpl in Hskip. assert (skip = 0%nat) as -> by lia.
    unfold last_or in Hp. simpl in Hp. simpl String.append.
    destruct (tok ++ q)%string as [| c r] eqn:Hs.
    { destruct tok; [ simpl in H3; lia | discriminate ]. }
    cbn [scan]. rewrite <- Hs, (match_here_complete _ _ _ Hp Haz H3 Hq). now left.
  - rewrite last_or_cons in Hp. cbn [String.append scan].
    destruct skip as [| k].
    + destruct (match_here before (String c (p ++ tok ++ q))) as [tok0 |] eqn:Hm.
      * right. apply IH; auto.
        destruct (match_here_sound _ _ _ Hm) as (q0 & Heq & Haz0 & H30 & _ & _).
        destruct (Nat.le_gt_cases (String.length tok0) (String.length p)) as [Hle | Hgt];
          [ lia | exfalso ].
        change (String c (p ++ tok ++ q)) with (String c p ++ (tok ++ q))%string in Heq.
        destruct (app_prefix_split tok0 q0 (String c p) (tok ++ q)%string) as [m Hm0];
          [ now symmetry | simpl; lia | ].
        rewrite Hm0 in Haz0. apply all_az_app in Haz0.
        destruct (last_char_cons c p) as [d Hd].
        pose proof (last_char_az _ _ Haz0 Hd) as Hdaz.
        assert (Hl : last_or (Some c) p = Some d).
        { rewrite <- (last_or_cons None). unfold last_or. now rewrite Hd. }
        rewrite Hl in Hp. simpl in Hp. rewrite (is_az_word _ Hdaz) in Hp. discriminate.
      * apply IH; auto. lia.
    + apply IH; auto. simpl in Hskip. lia.
Qed.

Lemma findall_complete (pre tok post : string) :
  word (last_char pre) = false ->
  word (first_char post) = false ->
  all_chars is_az tok = true ->
  (3 <= String.length tok)%nat ->
  In tok (findall (pre ++ tok ++ post)%string).
Proof.
  intros Hp Hq Haz H3. unfold findall. apply scan_complete; auto; [ lia | ].
  unfold last_or. destruct (last_char pre); auto.
Qed.

(** X8.  The matches of the pattern of line 164 in a text are exactly the runs of
    at least three letters of [[a-z]] that have no word character (letter,
    digit, underscore) right before them and none right after them. *)
Theorem findall_matches_exactly_the_delimited_runs (text tok : string) :
  In tok (findall text) <->
  exists pre post,
    text = (pre ++ tok ++ post)%string /\
    word (last_char pre) = false /\
    word (first_char post) = false /\
    all_chars is_az tok = true /\
    (3 <= String.length tok)%nat.
Proof.
  split.
  - intros H. destruct (scan_sound _ _ _ _ H) as (p & q & Heq & Haz & H3 & Hp & Hq).
    exists p, q. repeat split; auto.
    unfold last_or in Hp. now destruct (last_char p).
  - intros (pre & post & -> & Hp & Hq & Haz & H3). now apply findall_complete.
Qed.

(** ** Source bars and the pie outside the data model *)

Lemma total_count_incr k counts : total_count (incr k counts) = total_count counts + 1.
Proof.
  unfold total_count. induction counts as [| [k' n] r IH]; simpl; [ reflexivity | ].
  destruct (String.eqb k k'); simpl; lia.
Qed.

Lemma incr_entries k counts x c :
  In (x, c) (incr k counts) ->
  (x = k /\ 1 <= c \/ In (x, c) counts) \/ exists c0, In (x, c0) counts /\ c = c0 + 1.
Proof.
  induction counts as [| [k' n] r IH]; simpl.
  - intros [[= <- <-] | []]. left. left. split; [ reflexivity | lia ].
  - destruct (String.eqb_spec k k') as [-> | Hne]; simpl.
    + intros [[= <- <-] | H]; [ right; exists n; auto | left; right; auto ].
    + intros [[= <- <-] | H]; [ left; right; auto | ].
      destruct (IH H) as [[Hk | Hin] | (c0 & Hin & ->)]; eauto 6.
Qed.

Lemma derive_fold responses : forall counts,
  total_count (fold_left derive_step responses counts) =
    total_count counts + Z.of_nat (length (List.filter is_record responses)) /\
  (Forall (fun nc => (fst nc = "Amazon Reviews" \/ fst nc = "Google News") /\ 1 <= snd nc) counts ->
   Forall (fun nc => (fst nc = "Amazon Reviews" \/ fst nc = "Google News") /\ 1 <= snd nc)
          (fold_left derive_step responses counts)).
Proof.
  induction responses as [| r rs IH]; intros counts; simpl.
  - split; [ lia | auto ].
  - destruct (IH (derive_step counts r)) as [Hsum Hnames]. split.
    + rewrite Hsum. destruct r as [a | xs | kvs]; simpl; try lia.
      rewrite total_count_incr. lia.
    + intros Hc. apply Hnames. destruct r as [a | xs | kvs]; simpl; auto.
      apply Forall_forall. intros [x c] Hx. apply list_elem_of_In in Hx. simpl.
      rewrite Forall_forall in Hc.
      destruct (incr_entries _ _ _ _ Hx) as [[[-> Hc1] | Hin] | (c0 & Hin & ->)].
      * split; [ | exact Hc1 ]. unfold source_name_of_record.
        destruct (contains "amazon" _); auto.
      * apply (Hc (x, c)). now apply list_elem_of_In.
      * destruct (Hc (x, c0)) as [Hn Hp]; [ now apply list_elem_of_In | ].
        simpl in *. split; [ exact Hn | lia ].
Qed.

Lemma derive_entries responses name c :
  In (name, c) (_derive_source_breakdown responses) ->
  (name = "Amazon Reviews" \/ name = "Google News") /\ 1 <= c.
Proof.
  intros Hin. destruct (derive_fold responses []) as [_ Hnames].
  assert (H0 : Forall (fun nc : string * Z =>
                         (fst nc = "Amazon Reviews" \/ fst nc = "Google News") /\ 1 <= snd nc) [])
    by constructor.
  specialize (Hnames H0). rewrite Forall_forall in Hnames.
  apply (Hnames (name, c)). now apply list_elem_of_In.
Qed.

(** X9.  The counts of [_derive_source_breakdown] add up to the number of records
    of the input, each count is at least 1, and the only names are
    [Amazon Reviews] and [Google News]. *)
Theorem derived_sources_count_every_record (responses : list value) :
  total_count (_derive_source_breakdown responses)
    = Z.of_nat (length (List.filter is_record responses)) /\
  (forall name c, In (name, c) (_derive_source_breakdown responses) ->
                  (name = "Amazon Reviews" \/ name = "Google News") /\ 1 <= c).
Proof.
  split; [ | apply derive_entries ].
  destruct (derive_fold responses []) as [Hsum _]. exact Hsum.
Qed.

Lemma source_bars_derived counts :
  Forall (fun nc => fst nc = "Amazon Reviews" \/ fst nc = "Google News") counts ->
  source_bars (map (fun kv => (Atom (AStr (fst kv)), Atom (AInt (snd kv)))) counts)
    = Ok (as_bars counts).
Proof.
  induction 1 as [| [n c] counts Hn Hrest IH]; [ reflexivity | ].
  cbn [map source_bars fst snd]. rewrite IH.
  cbn [source_value as_num int_of_num bind]. unfold as_bars. cbn [map fst snd].
  simpl in Hn. destruct Hn as [-> | ->]; reflexivity.
Qed.

(** X10.  When the summary's [sourceBreakdown] is absent or falsy and the list of
    records is not empty, the bars of the source chart are the derived
    breakdown as it is: its names as labels, its counts as values, in its
    order; no bar when the list holds no record. *)
Theorem source_bars_fall_back_to_records (kvs : list (string * value))
    (responses : list value) :
  truthy (get kvs "sourceBreakdown" (Dict [])) = false ->
  is_nil responses = false ->
  source_series (Dict kvs) responses = Ok (as_bars (_derive_source_breakdown responses)).
Proof.
  intros Hsb Hne. unfold source_series.
  assert (Hfalsy : breakdown_truthy
            match get kvs "sourceBreakdown" (Dict []) with
            | Dict sb => Pairs (take 5 (map (fun kv => (Atom (AStr (fst kv)), snd kv)) sb))
            | v => Other v
            end = false).
  { destruct (get kvs "sourceBreakdown" (Dict [])) as [a | xs | sb]; try exact Hsb.
    destruct sb; [ reflexivity | discriminate ]. }
  rewrite Hfalsy, Hne. cbn [negb andb].
  pose proof (derive_entries responses) as Hnames.
  destruct (_derive_source_breakdown responses) as [| nc rest] eqn:Hd; [ reflexivity | ].
  cbn [breakdown_truthy map is_nil negb breakdown_items bind].
  rewrite <- Hd in *.
  change (Atom (AStr (fst nc)), Atom (AInt (snd nc)))
    with ((fun kv : string * Z => (Atom (AStr (fst kv)), Atom (AInt (snd kv)))) nc).
  rewrite Hd. rewrite <- (map_cons (fun kv : string * Z => (Atom (AStr (fst kv)), Atom (AInt (snd kv))))).
  rewrite <- Hd. apply source_bars_derived.
  apply Forall_forall. intros [n c] Hin. apply list_elem_of_In in Hin.
  now destruct (Hnames _ _ Hin).
Qed.

Lemma source_bars_fall_back_to_records_witness :
  source_series (Dict []) [Dict [("source", Atom (AStr "rss"))]; Atom ANone]
    = Ok (as_bars (_derive_source_breakdown [Dict [("source", Atom (AStr "rss"))]; Atom ANone])).
Proof.
  apply (source_bars_fall_back_to_records []); reflexivity.
Defined.

Lemma source_bars_length items bars :
  source_bars items = Ok bars -> length bars = length items.
Proof.
  revert bars. induction items as [| [src stats] rest IH]; intros bars; cbn [source_bars].
  - now intros [= <-].
  - destruct (source_value stats) as [v | e]; [ | discriminate ]. cbn [bind].
    destruct (source_bars rest) as [bs | e]; [ | discriminate ]. cbn [bind].
    intros [= <-]. cbn [length]. now rewrite (IH bs).
Qed.

(** X11.  When the summary holds a non-empty [sourceBreakdown] mapping, the records
    play no part in the source chart, and the chart, when it is built, has
    one bar for each of the first five entries of the mapping. *)
Theorem summary_sources_take_precedence (kvs sb : list (string * value))
    (responses : list value) :
  lookup "sourceBreakdown" kvs = Some (Dict sb) ->
  is_nil sb = false ->
  source_series (Dict kvs) responses = source_series (Dict kvs) [] /\
  forall bars, source_series (Dict kvs) responses = Ok bars ->
               length bars = Nat.min 5 (length sb).
Proof.
  intros Hsb Hne. unfold source_series, get. rewrite Hsb.
  assert (Ht : breakdown_truthy
                 (Pairs (take 5 (map (fun kv => (Atom (AStr (fst kv)), snd kv)) sb))) = true).
  { destruct sb; [ discriminate | reflexivity ]. }
  rewrite Ht. cbn [negb andb]. rewrite Ht. split; [ reflexivity | ].
  intros bars Hb. cbn [breakdown_items bind] in Hb.
  rewrite (source_bars_length _ _ Hb), length_take, length_map. lia.
Qed.

Lemma summary_sources_take_precedence_witness :
  source_series (Dict [("sourceBreakdown", Dict [("amazon", Atom (AInt 3))])])
                [Dict [("source", Atom (AStr "rss"))]]
    = source_series (Dict [("sourceBreakdown", Dict [("amazon", Atom (AInt 3))])]) [] /\
  forall bars,
    source_series (Dict [("sourceBreakdown", Dict [("amazon", Atom (AInt 3))])])
                  [Dict [("source", Atom (AStr "rss"))]] = Ok bars ->
    length bars = Nat.min 5 (length [("amazon", Atom (AInt 3))]).
Proof.
  apply (summary_sources_take_precedence
           [("sourceBreakdown", Dict [("amazon", Atom (AInt 3))])]
           [("amazon", Atom (AInt 3))]); reflexivity.
Defined.

Lemma add_null_left b : add (Atom ANone) b = Raise TypeError.
Proof. reflexivity. Qed.

Lemma add_null_right a : exists e, add a (Atom ANone) = Raise e.
Proof.
  exists TypeError. unfold add. destruct (as_num a); cbn [as_num].
  - destruct a as [[] | |]; reflexivity.
  - destruct a as [[] | |]; reflexivity.
Qed.

(** X12.  A summary in which one of the three counts is present and [None] makes
    the sum of line 225 raise: no chart is built. *)
Theorem sentiment_split_rejects_null_counts (kvs : list (string * value)) (k : string) :
  In k ["positiveCount"; "neutralCount"; "negativeCount"] ->
  lookup k kvs = Some (Atom ANone) ->
  exists e, sentiment_split (Dict kvs) = Raise e.
Proof.
  intros Hk Hnull. unfold sentiment_split, get.
  destruct Hk as [<- | [<- | [<- | []]]]; rewrite Hnull.
  - exists TypeError. now rewrite add_null_left.
  - destruct (add_null_right match lookup "positiveCount" kvs with
                             | Some v => v | None => Atom (AInt 0) end) as (e & ->).
    now exists e.
  - destruct (add _ _) as [s1 | e]; cbn [bind]; [ | now exists e ].
    destruct (add_null_right s1) as (e & ->). now exists e.
Qed.

Lemma sentiment_split_rejects_null_counts_witness :
  exists e, sentiment_split (Dict [("neutralCount", Atom ANone)]) = Raise e.
Proof.
  apply (sentiment_split_rejects_null_counts [("neutralCount", Atom ANone)] "neutralCount");
    [ right; left; reflexivity | reflexivity ].
Defined.

(** ** The normalizer: raising, plain payloads, a second call *)

(** X13.  [parse_workflow_response] raises exactly when the summary candidate is
    a mapping and [len] of the responses candidate raises; what it raises is
    [TypeError]. *)
Theorem parse_raises_only_on_unsized_records (data : val) (h : list obj) :
  exists s r h1,
    select data h = Ok ((s, r), h1) /\
    ((exists e, parse_workflow_response data h = Raise e) <->
     is_dict h1 s = true /\ sized h1 r = false) /\
    (forall e, parse_workflow_response data h = Raise e -> e = TypeError).
Proof.
  destruct (select_grows data h) as (s & r & g & Hsel).
  exists s, r, (h ++ g). split; [ exact Hsel | ].
  assert (Hlen : forall e, len r (h ++ g) = Raise e -> e = TypeError).
  { intros e. unfold len. destruct r as [[] | l]; try congruence.
    destruct ((h ++ g) !! l) as [[] |]; congruence. }
  destruct (parse_cases _ _ _ _ _ Hsel) as
    [(Hs & r' & g' & Hp & _) | (l & kvs & -> & Hl & [(e & He & Hp) | (n & r' & g' & Hn & Hp & _)])].
  - rewrite Hp, Hs. split; [ split | ]; try congruence.
    + intros (e & He). discriminate.
    + intros []. discriminate.
  - rewrite Hp. unfold sized, is_dict, deref. rewrite Hl, He. split; [ split | ].
    + auto.
    + eauto.
    + intros e' [= <-]. now apply Hlen.
  - rewrite Hp. unfold sized. rewrite Hn. split; [ split | ]; try congruence.
    + intros (e & He). discriminate.
    + intros []. discriminate.
Qed.

Lemma select_unstructured data (h : list obj) :
  unstructured h data = true ->
  select data h = Ok ((VRef (length h), VRef (length h + 1)), h ++ [ODict []; OList []]).
Proof.
  intros Hu. unfold select, from_object, from_sequence. run_monad.
  unfold nonempty_list, is_dict, deref. destruct data as [a | l]; [ reflexivity | ].
  unfold unstructured in Hu.
  destruct (h !! l) as [[kvs | xs] |] eqn:Hl; try discriminate.
  destruct xs as [| [a | l'] rest];
    repeat rewrite (lookup_grow _ _ _ _ Hl); try reflexivity.
  destruct (h !! l') as [[kvs | ys] |] eqn:Hl'; try discriminate.
  unfold bindM, isinstance_dict, is_dict, deref.
  repeat rewrite (lookup_grow _ _ _ _ Hl'). reflexivity.
Qed.

(** X14.  For a payload that is neither a mapping nor a sequence that starts with
    a mapping, the call returns a new summary holding the eleven defaults,
    [totalItems] 0 among them, and a new empty record list; it adds five
    objects to the store and changes none. *)
Theorem parse_unstructured_payload (data : val) (h : list obj) :
  unstructured h data = true ->
  parse_workflow_response data h =
    Ok ((VRef (length h), VRef (length h + 1)),
        h ++ [ODict (filled 0 (length h + 2) []); OList []; ODict []; ODict []; ODict []]).
Proof.
  intros Hu. pose proof (select_unstructured _ _ Hu) as Hsel.
  set (h1 := h ++ [ODict []; OList []]) in *.
  assert (Hs : h1 !! length h = Some (ODict [])) by apply lookup_fresh.
  assert (Hr : h1 !! (length h + 1)%nat = Some (OList [])).
  { subst h1. now apply lookup_fresh_n. }
  assert (Hlen : len (VRef (length h + 1)) h1 = Ok (0, h1)) by (unfold len; now rewrite Hr).
  rewrite (parse_unfold _ _ _ _ _ Hsel), (fill_defaults_dict _ _ _ _ _ Hs Hlen), as_list_run.
  assert (Hl1 : length h1 = (length h + 2)%nat) by (subst h1; rewrite length_app; reflexivity).
  rewrite Hl1.
  assert (Hins : <[length h := ODict (filled 0 (length h + 2) [])]> h1
                 = h ++ [ODict (filled 0 (length h + 2) []); OList []]).
  { subst h1. rewrite insert_app_r_alt by lia. now rewrite Nat.sub_diag. }
  rewrite Hins. unfold is_list, deref.
  replace ((h ++ [ODict (filled 0 (length h + 2) []); OList []]) ++ [ODict []; ODict []; ODict []])
    with (h ++ [ODict (filled 0 (length h + 2) []); OList []; ODict []; ODict []; ODict []])
    by (now rewrite <- app_assoc).
  rewrite (lookup_fresh_n h _ 1 (OList [])) by reflexivity. reflexivity.
Qed.

Lemma parse_unstructured_payload_witness :
  parse_workflow_response (VAtom (AInt 5)) [] =
    Ok ((VRef 0, VRef 1),
        [ODict (filled 0 2 []); OList []; ODict []; ODict []; ODict []]).
Proof. apply (parse_unstructured_payload (VAtom (AInt 5)) []). reflexivity. Defined.

Lemma add_default_sets k v kvs : entry k (add_default k v kvs) <> None.
Proof. rewrite entry_add_default, String.eqb_refl. now destruct (entry k kvs). Qed.

Lemma add_default_keeps k k' v kvs :
  entry k kvs <> None -> entry k (add_default k' v kvs) <> None.
Proof. rewrite entry_add_default. now destruct (entry k kvs). Qed.

Lemma add_default_entry k k' v x kvs :
  entry k kvs = Some x -> entry k (add_default k' v kvs) = Some x.
Proof. intros H. now rewrite entry_add_default, H. Qed.

Lemma filled_entry n base kvs k x :
  entry k kvs = Some x -> entry k (filled n base kvs) = Some x.
Proof. intros H. unfold filled. now repeat apply add_default_entry. Qed.

Lemma filled_complete n base kvs k :
  In k SUMMARY_FIELDS -> entry k (filled n base kvs) <> None.
Proof.
  intros Hk. unfold filled. cbn in Hk.
  repeat (destruct Hk as [<- | Hk];
          [ repeat first [ apply add_default_sets | apply add_default_keeps ] | ]).
  destruct Hk.
Qed.

Lemma add_default_present k v kvs : entry k kvs <> None -> add_default k v kvs = kvs.
Proof. unfold add_default. now destruct (entry k kvs). Qed.

Lemma filled_present n base kvs :
  (forall k, In k SUMMARY_FIELDS -> entry k kvs <> None) -> filled n base kvs = kvs.
Proof.
  intros H. unfold filled.
  repeat rewrite (add_default_present _ _ kvs) by (apply H; cbn; tauto). reflexivity.
Qed.

(** When the summary of an object payload has every field already, the call
    only adds objects to the store. *)
Lemma parse_complete_summary (h : list obj) ld lS lR kvs S R :
  h !! ld = Some (ODict kvs) ->
  entry "sentiment" kvs = Some (VRef lS) ->
  entry "responses" kvs = Some (VRef lR) ->
  h !! lS = Some (ODict S) ->
  h !! lR = Some (OList R) ->
  (forall k, In k SUMMARY_FIELDS -> entry k S <> None) ->
  exists g, parse_workflow_response (VRef ld) h = Ok ((VRef lS, VRef lR), h ++ g).
Proof.
  intros Hd Hs Hr HS HR Hall.
  pose proof (select_dict _ _ _ Hd) as Hsel. rewrite Hs, Hr in Hsel. cbn [get_or] in Hsel.
  set (h1 := h ++ [ODict []; OList []; ODict []; OList []]) in *.
  assert (HS1 : h1 !! lS = Some (ODict S)) by (now apply lookup_grow).
  assert (HR1 : h1 !! lR = Some (OList R)) by (now apply lookup_grow).
  assert (Hlen : len (VRef lR) h1 = Ok (Z.of_nat (length R), h1))
    by (unfold len; now rewrite HR1).
  rewrite (parse_unfold _ _ _ _ _ Hsel), (fill_defaults_dict _ _ _ _ _ HS1 Hlen), as_list_run.
  rewrite (filled_present _ _ _ Hall), (list_insert_id _ _ _ HS1).
  unfold is_list, deref. rewrite (lookup_grow _ _ _ _ HR1).
  subst h1. rewrite <- app_assoc. eauto.
Qed.

(** X15.  Normalizing the same object payload a second time returns the same
    summary and the same record list, and changes no object of the store
    the first call left: the defaults are set once. *)
Theorem parse_again_changes_nothing (h : list obj) ld lS lR kvs S R :
  h !! ld = Some (ODict kvs) ->
  entry "sentiment" kvs = Some (VRef lS) ->
  entry "responses" kvs = Some (VRef lR) ->
  h !! lS = Some (ODict S) ->
  h !! lR = Some (OList R) ->
  exists h' g,
    parse_workflow_response (VRef ld) h = Ok ((VRef lS, VRef lR), h') /\
    parse_workflow_response (VRef ld) h' = Ok ((VRef lS, VRef lR), h' ++ g).
Proof.
  intros Hd Hs Hr HS HR.
  pose proof (select_dict _ _ _ Hd) as Hsel. rewrite Hs, Hr in Hsel. cbn [get_or] in Hsel.
  set (h1 := h ++ [ODict []; OList []; ODict []; OList []]) in *.
  assert (HS1 : h1 !! lS = Some (ODict S)) by (now apply lookup_grow).
  assert (HR1 : h1 !! lR = Some (OList R)) by (now apply lookup_grow).
  assert (Hd1 : h1 !! ld = Some (ODict kvs)) by (now apply lookup_grow).
  assert (Hlen : len (VRef lR) h1 = Ok (Z.of_nat (length R), h1))
    by (unfold len; now rewrite HR1).
  assert (Hne : lS <> lR) by (intros ->; rewrite HS in HR; discriminate).
  rewrite (parse_unfold _ _ _ _ _ Hsel), (fill_defaults_dict _ _ _ _ _ HS1 Hlen), as_list_run.
  set (S' := filled (Z.of_nat (length R)) (length h1) S).
  set (h' := <[lS:=ODict S']> h1 ++ [ODict []; ODict []; ODict []]).
  assert (HR2 : h' !! lR = Some (OList R)).
  { apply lookup_grow. now rewrite list_lookup_insert_ne. }
  assert (HS2 : h' !! lS = Some (ODict S')).
  { apply lookup_grow. eapply lookup_insert_same; eauto. }
  unfold is_list at 1. unfold deref. rewrite HR2.
  exists h'. destruct (Nat.eq_dec ld lS) as [-> | Hdne].
  - assert (kvs = S) as -> by congruence.
    destruct (parse_complete_summary h' lS lS lR S' S' R) as (g & Hg); auto.
    + now apply filled_entry.
    + now apply filled_entry.
    + intros k Hk. now apply filled_complete.
    + eauto.
  - assert (Hd2 : h' !! ld = Some (ODict kvs)).
    { apply lookup_grow. now rewrite list_lookup_insert_ne. }
    destruct (parse_complete_summary h' ld lS lR kvs S' R) as (g & Hg); auto.
    + intros k Hk. now apply filled_complete.
    + eauto.
Qed.

Lemma parse_again_changes_nothing_witness :
  exists h' g,
    parse_workflow_response (VRef 2) object_store = Ok ((VRef 0, VRef 1), h') /\
    parse_workflow_response (VRef 2) h' = Ok ((VRef 0, VRef 1), h' ++ g).
Proof.
  apply (parse_again_changes_nothing object_store 2 0 1
           [("sentiment", VRef 0); ("responses", VRef 1)] [] [VAtom (AInt 5)]);
    reflexivity.
Defined.

(** X16.  When the object payload has no [sentiment] and its [responses] is a
    mapping, the mapping is returned as the only element of a new list,
    unchanged, while the default of [totalItems] is the number of its keys:
    the length is taken before the mapping is wrapped. *)
Theorem parse_wraps_a_single_record (h : list obj) ld lR kvs fields :
  h !! ld = Some (ODict kvs) ->
  entry "sentiment" kvs = None ->
  entry "responses" kvs = Some (VRef lR) ->
  h !! lR = Some (ODict fields) ->
  exists h',
    parse_workflow_response (VRef ld) h
      = Ok ((VRef (length h + 2), VRef (length h + 7)), h') /\
    h' !! (length h + 7)%nat = Some (OList [VRef lR]) /\
    h' !! lR = Some (ODict fields) /\
    h' !! (length h + 2)%nat
      = Some (ODict (filled (Z.of_nat (length fields)) (length h + 4) [])).
Proof.
  intros Hd Hs Hr HR.
  pose proof (select_dict _ _ _ Hd) as Hsel. rewrite Hs, Hr in Hsel. cbn [get_or] in Hsel.
  set (h1 := h ++ [ODict []; OList []; ODict []; OList []]) in *.
  assert (Hl1 : length h1 = (length h + 4)%nat) by (subst h1; rewrite length_app; reflexivity).
  assert (HS1 : h1 !! (length h + 2)%nat = Some (ODict [])).
  { subst h1. now apply lookup_fresh_n. }
  assert (HR1 : h1 !! lR = Some (ODict fields)) by (now apply lookup_grow).
  assert (Hlen : len (VRef lR) h1 = Ok (Z.of_nat (length fields), h1))
    by (unfold len; now rewrite HR1).
  assert (Hlt : (lR < length h)%nat) by (eapply lookup_lt_Some; eauto).
  rewrite (parse_unfold _ _ _ _ _ Hsel), (fill_defaults_dict _ _ _ _ _ HS1 Hlen), as_list_run.
  rewrite Hl1.
  set (S' := filled (Z.of_nat (length fields)) (length h + 4) []).
  set (h2 := <[(length h + 2)%nat:=ODict S']> h1 ++ [ODict []; ODict []; ODict []]).
  assert (HR2 : h2 !! lR = Some (ODict fields)).
  { apply lookup_grow. rewrite list_lookup_insert_ne by lia. exact HR1. }
  assert (Hl2 : length h2 = (length h + 7)%nat).
  { subst h2. rewrite length_app, length_insert, Hl1. cbn [length]. lia. }
  unfold is_list, is_dict, deref. rewrite HR2, Hl2.
  eexists. split; [ reflexivity | ]. split; [ | split ].
  - rewrite <- Hl2. apply lookup_fresh.
  - now apply lookup_grow.
  - apply lookup_grow. apply lookup_grow. eapply lookup_insert_same; eauto.
Qed.

Lemma parse_wraps_a_single_record_witness :
  exists h',
    parse_workflow_response (VRef 1)
        [ODict [("headline", VAtom (AStr "h")); ("summary", VAtom (AStr "s"))];
         ODict [("responses", VRef 0)]]
      = Ok ((VRef 4, VRef 9), h') /\
    h' !! 9%nat = Some (OList [VRef 0]) /\
    h' !! 0%nat = Some (ODict [("headline", VAtom (AStr "h")); ("summary", VAtom (AStr "s"))]) /\
    h' !! 4%nat = Some (ODict (filled 2 6 [])).
Proof.
  apply (parse_wraps_a_single_record
           [ODict [("headline", VAtom (AStr "h")); ("summary", VAtom (AStr "s"))];
            ODict [("responses", VRef 0)]] 1 0 [("responses", VRef 0)]
           [("headline", VAtom (AStr "h")); ("summary", VAtom (AStr "s"))]);
    reflexivity.
Defined.

(** ** The normalizer: a sequence that wraps an object *)

(** X26.  For a sequence payload whose first element is an object with a
    [sentiment] mapping and a [responses] list, the call returns that mapping,
    with its absent fields filled and [totalItems] defaulting to the length of
    the list, and that list, unchanged; the other elements of the sequence
    are not read and the sequence is left as it is. *)
Theorem parse_sequence_reads_its_first_element (h : list obj) ld lf rest kvs lS lR S R :
  h !! ld = Some (OList (VRef lf :: rest)) ->
  h !! lf = Some (ODict kvs) ->
  entry "sentiment" kvs = Some (VRef lS) ->
  entry "responses" kvs = Some (VRef lR) ->
  h !! lS = Some (ODict S) ->
  h !! lR = Some (OList R) ->
  exists h' S',
    parse_workflow_response (VRef ld) h = Ok ((VRef lS, VRef lR), h') /\
    h' !! lR = Some (OList R) /\
    h' !! lS = Some (ODict S') /\
    defaults_filled (Z.of_nat (length R)) h' S S' /\
    h' !! ld = Some (OList (VRef lf :: rest)).
Proof.
  intros Hd Hf Hs Hr HS HR.
  pose proof (select_list_dict _ _ _ _ _ Hd Hf) as Hsel. rewrite Hs, Hr in Hsel.
  cbn [get_or] in Hsel.
  set (h1 := h ++ [ODict []; OList [];
                   OList (if has_key "headline" kvs || has_key "personalized_response" kvs
                          then [VRef lf] else [])]) in *.
  assert (HS1 : h1 !! lS = Some (ODict S)) by (now apply lookup_grow).
  assert (HR1 : h1 !! lR = Some (OList R)) by (now apply lookup_grow).
  assert (Hd1 : h1 !! ld = Some (OList (VRef lf :: rest))) by (now apply lookup_grow).
  assert (Hlen : len (VRef lR) h1 = Ok (Z.of_nat (length R), h1))
    by (unfold len; now rewrite HR1).
  assert (Hne : lS <> lR) by (intros ->; rewrite HS in HR; discriminate).
  assert (Hne' : lS <> ld) by (intros ->; rewrite HS in Hd; discriminate).
  rewrite (parse_unfold _ _ _ _ _ Hsel), (fill_defaults_dict _ _ _ _ _ HS1 Hlen), as_list_run.
  set (S' := filled (Z.of_nat (length R)) (length h1) S).
  assert (HR2 : (<[lS:=ODict S']> h1 ++ [ODict []; ODict []; ODict []]) !! lR = Some (OList R)).
  { apply lookup_grow. now rewrite list_lookup_insert_ne. }
  unfold is_list at 1. unfold deref. rewrite HR2.
  eexists _, S'. split; [ reflexivity | ]. split; [ exact HR2 | ]. split; [ | split ].
  - apply lookup_grow. eapply lookup_insert_same; eauto.
  - apply filled_spec; [ rewrite <- (Nat.add_0_r (length h1)) | | ];
      apply (three_fresh h1 lS (ODict S') []); lia.
  - apply lookup_grow. now rewrite list_lookup_insert_ne.
Qed.

Lemma parse_sequence_reads_its_first_element_witness :
  exists h' S',
    parse_workflow_response (VRef 3)
        [ODict []; OList [VAtom (AInt 5)];
         ODict [("sentiment", VRef 0); ("responses", VRef 1)];
         OList [VRef 2; VAtom (AInt 7)]]
      = Ok ((VRef 0, VRef 1), h') /\
    h' !! 1%nat = Some (OList [VAtom (AInt 5)]) /\
    h' !! 0%nat = Some (ODict S') /\
    defaults_filled (Z.of_nat (length [VAtom (AInt 5)])) h' [] S' /\
    h' !! 3%nat = Some (OList [VRef 2; VAtom (AInt 7)]).
Proof.
  apply (parse_sequence_reads_its_first_element
           [ODict []; OList [VAtom (AInt 5)];
            ODict [("sentiment", VRef 0); ("responses", VRef 1)];
            OList [VRef 2; VAtom (AInt 7)]]
           3 2 [VAtom (AInt 7)] [("sentiment", VRef 0); ("responses", VRef 1)]
           0 1 [] [VAtom (AInt 5)]); reflexivity.
Defined.

(** ** Shortened labels and the webhook address *)

Lemma length_append (a b : string) :
  String.length (a ++ b) = (String.length a + String.length b)%nat.
Proof. induction a as [| c a IH]; simpl; [ reflexivity | now rewrite IH ]. Qed.

Lemma length_substring_le n s : (String.length (substring 0 n s) <= n)%nat.
Proof.
  revert s. induction n as [| n IH]; intros [| c s]; simpl; try lia.
  specialize (IH s). lia.
Qed.

Lemma before_last_shorter c s p :
  before_last c s = Some p -> (String.length p < String.length s)%nat.
Proof.
  revert p. induction s as [| a r IH]; simpl; intros p; [ discriminate | ].
  destruct (before_last c r) as [q |].
  - intros [= <-]. specialize (IH q eq_refl). simpl. lia.
  - destruct (Ascii.eqb a c); [ | discriminate ]. intros [= <-]. simpl. lia.
Qed.

Lemma rsplit_head_length s : (String.length (rsplit_head s) <= String.length s)%nat.
Proof.
  unfold rsplit_head. destruct (before_last " " s) as [p |] eqn:Hp; [ | lia ].
  apply before_last_shorter in Hp. lia.
Qed.

(** X17.  For a limit of at least 1, the label [_truncate_label] returns is never
    longer than the limit, the ellipsis included. *)
Theorem truncated_label_fits (text : value) (max_len : Z) :
  1 <= max_len ->
  Z.of_nat (String.length (_truncate_label text max_len)) <= max_len.
Proof.
  intros Hm. unfold _truncate_label.
  set (s := strip (title (replace "_" " " (str text)))).
  destruct (Z.of_nat (String.length s) <=? max_len) eqn:Hfit; [ lia | ].
  rewrite length_append. cbn [ELLIPSIS String.length].
  assert (Hcut : (String.length (slice_to (max_len - 1) s) <= Z.to_nat (max_len - 1))%nat).
  { unfold slice_to. destruct (0 <=? max_len - 1) eqn:H0; [ | lia ].
    apply length_substring_le. }
  pose proof (rsplit_head_length (slice_to (max_len - 1) s)).
  destruct (contains " " (slice_to max_len s)); lia.
Qed.

Lemma truncated_label_fits_witness :
  Z.of_nat (String.length (_truncate_label (Atom (AStr "battery_life_and_charging_case_issues")) 30))
    <= 30.
Proof. apply (truncated_label_fits (Atom (AStr "battery_life_and_charging_case_issues")) 30). lia. Defined.

Lemma contains_space_cons c r :
  contains " " (String c r) = Ascii.eqb c " " || contains " " r.
Proof.
  cbn [contains String.prefix]. destruct (ascii_dec " " c) as [<- | Hne].
  - now destruct r.
  - destruct (Ascii.eqb_spec c " ") as [-> | _]; [ congruence | reflexivity ].
Qed.

Lemma before_last_contains s p : before_last " " s = Some p -> contains " " s = true.
Proof.
  revert p. induction s as [| a r IH]; intros p; cbn [before_last]; [ discriminate | ].
  rewrite contains_space_cons. destruct (before_last " " r) as [q |].
  - intros _. rewrite (IH q eq_refl). apply orb_true_r.
  - destruct (Ascii.eqb a " "); [ reflexivity | discriminate ].
Qed.

Lemma contains_space_longer n s :
  contains " " (substring 0 n s) = true -> contains " " (substring 0 (S n) s) = true.
Proof.
  revert s. induction n as [| n IH]; intros [| c s]; try discriminate.
  change (substring 0 (S (S n)) (String c s)) with (String c (substring 0 (S n) s)).
  change (substring 0 (S n) (String c s)) with (String c (substring 0 n s)).
  rewrite !contains_space_cons.
  destruct (Ascii.eqb c " "); [ reflexivity | ]. cbn [orb]. apply IH.
Qed.

Lemma prefix_cons c a s : String.prefix (String c a) (String c s) = String.prefix a s.
Proof. cbn [String.prefix]. destruct (ascii_dec c c); [ reflexivity | congruence ]. Qed.

Lemma prefix_empty s : String.prefix "" s = true.
Proof. now destruct s. Qed.

Lemma prefix_space s : String.prefix ("" ++ " ") (String " " s) = true.
Proof. cbn [append]. rewrite prefix_cons. apply prefix_empty. Qed.

Lemma substring_0_0 s : substring 0 0 s = "".
Proof. now destruct s. Qed.

Lemma prefix_substring n s : String.prefix (substring 0 n s) s = true.
Proof.
  revert s. induction n as [| n IH]; intros [| c s]; try reflexivity.
  cbn [substring]. rewrite prefix_cons. apply IH.
Qed.

Lemma before_last_prefix s p :
  before_last " " s = Some p -> String.prefix (p ++ " ") s = true.
Proof.
  revert p. induction s as [| a r IH]; intros p; cbn [before_last]; [ discriminate | ].
  destruct (before_last " " r) as [q |].
  - intros [= <-]. cbn [append]. rewrite prefix_cons. now apply IH.
  - destruct (Ascii.eqb_spec a " ") as [-> | _]; [ | discriminate ].
    intros [= <-]. apply prefix_space.
Qed.

Lemma prefix_trans a b c :
  String.prefix a b = true -> String.prefix b c = true -> String.prefix a c = true.
Proof.
  revert b c. induction a as [| x a IH]; intros [| y b] [| z c]; try reflexivity; try discriminate.
  cbn [String.prefix]. destruct (ascii_dec x y) as [-> | ]; [ | discriminate ].
  destruct (ascii_dec y z) as [-> | ]; [ | discriminate ]. apply IH.
Qed.

Lemma cut_at_space n s :
  contains " " (substring 0 (S n) s) = true ->
  String.prefix (rsplit_head (substring 0 n s) ++ " ") s = true.
Proof.
  revert s. induction n as [| n IH]; intros [| c s]; try discriminate.
  - change (substring 0 1 (String c s)) with (String c (substring 0 0 s)).
    change (substring 0 0 (String c s)) with "".
    rewrite substring_0_0, contains_space_cons. change (contains " " "") with false.
    destruct (Ascii.eqb_spec c " ") as [-> | _]; [ | discriminate ].
    intros _. apply prefix_space.
  - change (substring 0 (S (S n)) (String c s)) with (String c (substring 0 (S n) s)).
    change (substring 0 (S n) (String c s)) with (String c (substring 0 n s)).
    rewrite contains_space_cons. unfold rsplit_head. cbn [before_last].
    destruct (before_last " " (substring 0 n s)) as [p |] eqn:Hp.
    + intros _. cbn [append]. rewrite prefix_cons.
      specialize (IH s (contains_space_longer _ _ (before_last_contains _ _ Hp))).
      unfold rsplit_head in IH. now rewrite Hp in IH.
    + destruct (Ascii.eqb_spec c " ") as [-> | _]; [ intros _; apply prefix_space | ].
      cbn [orb].
      intros H. specialize (IH s H). unfold rsplit_head in IH. rewrite Hp in IH.
      cbn [append]. now rewrite prefix_cons.
Qed.

Lemma rsplit_head_prefix s : String.prefix (rsplit_head s) s = true.
Proof.
  unfold rsplit_head. destruct (before_last " " s) as [p |] eqn:Hp.
  - apply before_last_prefix in Hp. revert Hp. generalize s.
    induction p as [| x p IH]; intros [| y t]; try reflexivity; try discriminate.
    cbn [append String.prefix]. destruct (ascii_dec x y); [ apply IH | discriminate ].
  - clear. induction s as [| c s IH]; [ reflexivity | ]. now rewrite prefix_cons.
Qed.

(** X18.  A cleaned label longer than the limit is returned as one of its prefixes
    followed by the ellipsis.  When its first [max_len] characters hold a
    space, the prefix ends right before a space of the label, so no word is
    cut in two; otherwise the prefix is the first [max_len - 1] characters. *)
Theorem long_label_is_cut_at_a_space (text : value) (max_len : Z) :
  1 <= max_len ->
  max_len < Z.of_nat (String.length (strip (label_key text))) ->
  exists part,
    _truncate_label text max_len = (part ++ ELLIPSIS)%string /\
    String.prefix part (strip (label_key text)) = true /\
    (contains " " (slice_to max_len (strip (label_key text))) = true ->
     String.prefix (part ++ " ") (strip (label_key text)) = true) /\
    (contains " " (slice_to max_len (strip (label_key text))) = false ->
     part = slice_to (max_len - 1) (strip (label_key text))).
Proof.
  intros Hm Hlong. unfold _truncate_label. fold (label_key text).
  set (s := strip (label_key text)) in *.
  replace (Z.of_nat (String.length s) <=? max_len) with false by lia.
  assert (Hs1 : slice_to max_len s = substring 0 (S (Z.to_nat (max_len - 1))) s).
  { unfold slice_to. replace (0 <=? max_len) with true by lia. f_equal. lia. }
  assert (Hs0 : slice_to (max_len - 1) s = substring 0 (Z.to_nat (max_len - 1)) s).
  { unfold slice_to. now replace (0 <=? max_len - 1) with true by lia. }
  rewrite Hs1, Hs0.
  destruct (contains " " (substring 0 (S (Z.to_nat (max_len - 1))) s)) eqn:Hsp.
  - eexists. split; [ reflexivity | ]. split; [ | split ].
    + eapply prefix_trans; [ apply rsplit_head_prefix | apply prefix_substring ].
    + intros _. now apply cut_at_space.
    + discriminate.
  - eexists. split; [ reflexivity | ]. split; [ | split ].
    + apply prefix_substring.
    + discriminate.
    + reflexivity.
Qed.

Lemma long_label_is_cut_at_a_space_witness :
  exists part,
    _truncate_label (Atom (AStr "battery_life_and_charging_case_issues")) 30
      = (part ++ ELLIPSIS)%string /\
    String.prefix part (strip (label_key (Atom (AStr "battery_life_and_charging_case_issues"))))
      = true /\
    (contains " " (slice_to 30 (strip (label_key (Atom (AStr "battery_life_and_charging_case_issues")))))
       = true ->
     String.prefix (part ++ " ")
       (strip (label_key (Atom (AStr "battery_life_and_charging_case_issues")))) = true) /\
    (contains " " (slice_to 30 (strip (label_key (Atom (AStr "battery_life_and_charging_case_issues")))))
       = false ->
     part = slice_to (30 - 1)
              (strip (label_key (Atom (AStr "battery_life_and_charging_case_issues"))))).
Proof.
  apply (long_label_is_cut_at_a_space (Atom (AStr "battery_life_and_charging_case_issues")) 30).
  - lia.
  - vm_compute. reflexivity.
Defined.

Lemma lstrip_pad a s : all_chars is_space a = true -> lstrip (a ++ s) = lstrip s.
Proof.
  induction a as [| c a IH]; [ reflexivity | ]. cbn [all_chars append lstrip].
  intros H. apply andb_prop in H as [Hc Ha]. rewrite Hc. now apply IH.
Qed.

Lemma rstrip_blank b : all_chars is_space b = true -> rstrip b = "".
Proof.
  induction b as [| c b IH]; [ reflexivity | ]. cbn [all_chars rstrip].
  intros H. apply andb_prop in H as [Hc Hb]. now rewrite (IH Hb), Hc.
Qed.

Lemma rstrip_pad s b : all_chars is_space b = true -> rstrip (s ++ b) = rstrip s.
Proof.
  intros Hb. induction s as [| c s IH]; cbn [append rstrip].
  - now apply rstrip_blank.
  - now rewrite IH.
Qed.

Lemma strip_pad a s b :
  all_chars is_space a = true -> all_chars is_space b = true ->
  strip (a ++ s ++ b) = strip s.
Proof.
  intros Ha Hb. unfold strip. rewrite (lstrip_pad _ _ Ha). clear a Ha.
  induction s as [| c s IH]; cbn [append lstrip].
  - now rewrite (lstrip_blank _ Hb).
  - destruct (is_space c); [ exact IH | ].
    change (String c (s ++ b)%string) with (String c s ++ b)%string. now apply rstrip_pad.
Qed.

Lemma strip_empty_arg url : is_empty url || is_empty (strip url) = is_empty (strip url).
Proof. destruct url; reflexivity. Qed.

(** X19.  Whitespace before and after the address does not change the verdict of
    [_validate_webhook_url]. *)
Theorem validation_ignores_surrounding_whitespace (a url b : string) :
  all_chars is_space a = true ->
  all_chars is_space b = true ->
  _validate_webhook_url (a ++ url ++ b) = _validate_webhook_url url.
Proof.
  intros Ha Hb. unfold _validate_webhook_url.
  now rewrite !strip_empty_arg, (strip_pad _ _ _ Ha Hb).
Qed.

Lemma validation_ignores_surrounding_whitespace_witness :
  _validate_webhook_url ("  " ++ "http://localhost:5678/webhook/meta-sentiment/" ++ " ")
    = _validate_webhook_url "http://localhost:5678/webhook/meta-sentiment/".
Proof.
  apply (validation_ignores_surrounding_whitespace "  "
           "http://localhost:5678/webhook/meta-sentiment/" " "); reflexivity.
Defined.

Lemma rstrip_empty_blank s : rstrip s = "" -> all_chars is_space s = true.
Proof.
  induction s as [| c s IH]; [ reflexivity | ]. cbn [rstrip all_chars].
  destruct (rstrip s); [ | discriminate ].
  destruct (is_space c); [ intros _; now rewrite IH | discriminate ].
Qed.

Lemma lstrip_blank_arg s : all_chars is_space (lstrip s) = true -> all_chars is_space s = true.
Proof.
  induction s as [| c s IH]; [ reflexivity | ]. cbn [lstrip all_chars].
  destruct (is_space c) eqn:Hc; [ exact IH | ]. cbn [all_chars]. now rewrite Hc.
Qed.

(** X20.  The message that the address is required is given for exactly the
    addresses that are empty or made of whitespace. *)
Theorem url_is_required_iff_blank (url : string) :
  _validate_webhook_url url = Some "Webhook URL is required." <->
  all_chars is_space url = true.
Proof.
  unfold _validate_webhook_url. rewrite strip_empty_arg. split.
  - destruct (is_empty (strip url)) eqn:He.
    + intros _. apply lstrip_blank_arg, rstrip_empty_blank.
      unfold strip in He. now destruct (rstrip (lstrip url)).
    + destruct (negb _); [ discriminate | ]. destruct (_ && _); discriminate.
  - intros Hb. unfold strip. now rewrite (lstrip_blank _ Hb).
Qed.

(** ** The table of the review tab *)

Lemma clip_length n s : (String.length (clip n s) <= n + 3)%nat.
Proof.
  unfold clip. rewrite length_append. pose proof (length_substring_le n s).
  destruct (n <? String.length s)%nat; simpl; lia.
Qed.

Lemma table_rows_spec responses : forall i rows,
  table_rows i responses = Some rows ->
  length rows = length (List.filter is_record responses) /\
  StronglySorted (fun a b => number a < number b) rows /\
  forall x, In x rows ->
    i < number x <= i + Z.of_nat (length responses) /\
    exists kvs, responses !! Z.to_nat (number x - 1 - i) = Some (Dict kvs) /\
                table_row (number x - 1) kvs = Some x.
Proof.
  induction responses as [| r rest IH]; intros i rows; cbn [table_rows].
  - intros [= <-]. split; [ reflexivity | ]. split; [ constructor | intros x [] ].
  - assert (Hskip : forall rows, table_rows (i + 1) rest = Some rows ->
              length rows = length (List.filter is_record rest) /\
              StronglySorted (fun a b => number a < number b) rows /\
              forall x, In x rows ->
                i < number x <= i + Z.of_nat (length (r :: rest)) /\
                exists kvs, (r :: rest) !! Z.to_nat (number x - 1 - i) = Some (Dict kvs) /\
                            table_row (number x - 1) kvs = Some x).
    { intros rows' H. destruct (IH _ _ H) as (Hlen & Hsort & Hin).
      split; [ exact Hlen | ]. split; [ exact Hsort | ].
      intros x Hx. destruct (Hin x Hx) as (Hrange & kvs & Hat & Hrow).
      split; [ cbn [length]; lia | ]. exists kvs. split; [ | exact Hrow ].
      replace (Z.to_nat (number x - 1 - i)) with (S (Z.to_nat (number x - 1 - (i + 1)))) by lia.
      exact Hat. }
    destruct r as [a | xs | kvs]; cbn [List.filter is_record]; try apply Hskip.
    destruct (table_row i kvs) as [x0 |] eqn:Hrow0; [ | discriminate ].
    destruct (table_rows (i + 1) rest) as [rows' |] eqn:Hrest; [ | discriminate ].
    cbn [option_map]. intros [= <-].
    destruct (Hskip rows' eq_refl) as (Hlen & Hsort & Hin).
    assert (Hn0 : number x0 = i + 1).
    { unfold table_row in Hrow0. destruct (themes_cell kvs); [ | discriminate ].
      cbn [option_map] in Hrow0. now injection Hrow0 as <-. }
    split; [ cbn [length]; now rewrite Hlen | ]. split.
    + constructor; [ exact Hsort | ]. apply Forall_forall. intros x Hx.
      apply list_elem_of_In in Hx. destruct (IH _ _ Hrest) as (_ & _ & Hin').
      destruct (Hin' x Hx) as (Hrange & _). lia.
    + intros x [<- | Hx]; [ | now apply Hin ].
      rewrite Hn0. split; [ cbn [length]; lia | ]. exists kvs.
      replace (i + 1 - 1 - i) with 0 by lia. split; [ reflexivity | ].
      now replace (i + 1 - 1) with i by lia.
Qed.

Lemma list_slice_to_length {A} k (l : list A) :
  0 <= k -> Z.of_nat (length (list_slice_to k l)) <= k.
Proof.
  intros Hk. unfold list_slice_to. replace (0 <=? k) with true by lia.
  rewrite length_take. lia.
Qed.

(** X21.  Whenever [build_table] returns, it has one row for each record among the
    entries it reads, the first [max_disp] ones; the column [#] of a row is
    the position, from 1, of its record in the input, so the numbers rise
    along the table and skip the entries that are not records; the review
    cell has at most 63 characters and the response preview at most 83. *)
Theorem table_rows_are_numbered_by_position (responses : list value) (max_disp : Z)
    (rows : list row) :
  build_table responses max_disp = Some rows ->
  length rows = length (List.filter is_record (list_slice_to max_disp responses)) /\
  StronglySorted (fun a b => number a < number b) rows /\
  forall x, In x rows ->
    (exists kvs, responses !! Z.to_nat (number x - 1) = Some (Dict kvs) /\
                 table_row (number x - 1) kvs = Some x) /\
    1 <= number x <= Z.of_nat (length responses) /\
    (0 <= max_disp -> number x <= max_disp) /\
    (String.length (Review x) <= 63)%nat /\
    (String.length (ResponsePreview x) <= 83)%nat.
Proof.
  unfold build_table. intros H.
  destruct (table_rows_spec _ _ _ H) as (Hlen & Hsort & Hin).
  split; [ exact Hlen | ]. split; [ exact Hsort | ].
  intros x Hx. destruct (Hin x Hx) as (Hrange & kvs & Hat & Hrow).
  replace (number x - 1 - 0) with (number x - 1) in Hat by lia.
  assert (Hat' : responses !! Z.to_nat (number x - 1) = Some (Dict kvs)).
  { unfold list_slice_to in Hat. rewrite lookup_take_Some in Hat. tauto. }
  split; [ eauto | ]. split; [ | split; [ | split ] ].
  - apply lookup_lt_Some in Hat'. lia.
  - intros Hk. pose proof (list_slice_to_length max_disp responses Hk). lia.
  - unfold table_row in Hrow. destruct (themes_cell kvs); [ | discriminate ].
    cbn [option_map] in Hrow. injection Hrow as <-. cbn [Review]. apply clip_length.
  - unfold table_row in Hrow. destruct (themes_cell kvs); [ | discriminate ].
    cbn [option_map] in Hrow. injection Hrow as <-. cbn [ResponsePreview]. apply clip_length.
Qed.

Lemma table_rows_are_numbered_by_position_witness :
  length [ {| number := 2; Review := "Great glasses"; Sentiment := "POSITIVE";
              Score := Atom (AStr "-"); Themes := "camera quality, design";
              ResponsePreview := "" |} ]
    = length (List.filter is_record
                (list_slice_to 5 [Atom (AInt 5);
                                  Dict [("headline", Atom (AStr "Great glasses"));
                                        ("ai_sentiment", Atom (AStr "positive"));
                                        ("ai_themes", List [Atom (AStr "camera_quality");
                                                            Atom (AStr "design")])]])) /\
  StronglySorted (fun a b => number a < number b)
    [ {| number := 2; Review := "Great glasses"; Sentiment := "POSITIVE";
         Score := Atom (AStr "-"); Themes := "camera quality, design";
         ResponsePreview := "" |} ] /\
  forall x,
    In x [ {| number := 2; Review := "Great glasses"; Sentiment := "POSITIVE";
              Score := Atom (AStr "-"); Themes := "camera quality, design";
              ResponsePreview := "" |} ] ->
    (exists kvs,
        [Atom (AInt 5);
         Dict [("headline", Atom (AStr "Great glasses"));
               ("ai_sentiment", Atom (AStr "positive"));
               ("ai_themes", List [Atom (AStr "camera_quality"); Atom (AStr "design")])]]
          !! Z.to_nat (number x - 1) = Some (Dict kvs) /\
        table_row (number x - 1) kvs = Some x) /\
    1 <= number x
      <= Z.of_nat (length [Atom (AInt 5);
                           Dict [("headline", Atom (AStr "Great glasses"));
                                 ("ai_sentiment", Atom (AStr "positive"));
                                 ("ai_themes", List [Atom (AStr "camera_quality");
                                                     Atom (AStr "design")])]]) /\
    (0 <= 5 -> number x <= 5) /\
    (String.length (Review x) <= 63)%nat /\
    (String.length (ResponsePreview x) <= 83)%nat.
Proof.
  apply (table_rows_are_numbered_by_position
           [Atom (AInt 5);
            Dict [("headline", Atom (AStr "Great glasses"));
                  ("ai_sentiment", Atom (AStr "positive"));
                  ("ai_themes", List [Atom (AStr "camera_quality"); Atom (AStr "design")])]]
           5).
  reflexivity.
Defined.

Lemma strings_defined xs : forallb is_string xs = true -> exists names, strings xs = Some names.
Proof.
  induction xs as [| x r IH]; cbn [forallb strings]; [ eauto | ].
  intros H. apply andb_prop in H as [Hx Hr]. destruct (IH Hr) as (names & Hn).
  destruct x as [[] | |]; try discriminate. rewrite Hn. cbn [option_map]. eauto.
Qed.

Lemma forallb_take {A} (p : A -> bool) n (l : list A) :
  forallb p l = true -> forallb p (take n l) = true.
Proof.
  revert n. induction l as [| x l IH]; intros [| n]; cbn [take forallb]; try reflexivity.
  intros H. apply andb_prop in H as [Hx Hl]. now rewrite Hx, IH.
Qed.

Lemma themes_cell_defined kvs :
  themes_are_strings (Dict kvs) = true -> exists c, themes_cell kvs = Some c.
Proof.
  unfold themes_are_strings, themes_cell, field, get.
  destruct (lookup "ai_themes" kvs) as [[a | xs | d] |]; try discriminate.
  - intros H. unfold or_else.
    assert (Hs : exists names,
               strings (take 3 (if truthy (List xs) then xs else [])) = Some names).
    { apply strings_defined. destruct (truthy (List xs)); [ now apply forallb_take | reflexivity ]. }
    destruct Hs as (names & Hn).
    destruct (truthy (List xs)); rewrite Hn; cbn [option_map]; eauto.
  - intros _. cbn. eauto.
Qed.

Lemma table_rows_defined responses : forall i,
  Forall (fun r => themes_are_strings r = true) responses ->
  exists rows, table_rows i responses = Some rows.
Proof.
  induction responses as [| r rest IH]; intros i Hall; cbn [table_rows]; [ eauto | ].
  apply Forall_cons in Hall as [Hr Hrest].
  destruct (IH (i + 1) Hrest) as (rows & Hrows).
  destruct r as [a | xs | kvs]; eauto.
  unfold table_row. destruct (themes_cell_defined kvs Hr) as (c & ->).
  cbn [option_map]. rewrite Hrows. cbn [option_map]. eauto.
Qed.

(** X22.  [build_table] returns whenever every record's [ai_themes] is absent or a
    list of strings, whatever the other fields hold. *)
Theorem table_is_built_for_string_themes (responses : list value) (max_disp : Z) :
  Forall (fun r => themes_are_strings r = true) responses ->
  exists rows, build_table responses max_disp = Some rows.
Proof.
  intros Hall. apply table_rows_defined. unfold list_slice_to.
  rewrite Forall_forall in *. intros r Hr. apply Hall.
  apply (sublist_subseteq _ _ (sublist_take _ _) _ Hr).
Qed.

Lemma table_is_built_for_string_themes_witness :
  exists rows,
    build_table [Atom (AInt 5);
                 Dict [("headline", Atom (AStr "Great glasses"));
                       ("ai_themes", List [Atom (AStr "camera_quality")])];
                 Dict [("headline", Atom (AStr "No themes"))]] 100 = Some rows.
Proof.
  apply (table_is_built_for_string_themes
           [Atom (AInt 5);
            Dict [("headline", Atom (AStr "Great glasses"));
                  ("ai_themes", List [Atom (AStr "camera_quality")])];
            Dict [("headline", Atom (AStr "No themes"))]] 100).
  repeat constructor.
Defined.

(** ** The size of the keyword block *)

(** X23.  Whatever the value of the slider, and on either path, the keyword block
    yields at most [max(10, min(50, top_kw))] entries, hence never more than
    50. *)
Theorem keyword_block_is_clamped (filtered : list value) (top_kw : Z)
    (keywords : list (string * Z)) :
  keywords_or_fallback filtered top_kw = Ok keywords ->
  Z.of_nat (length keywords) <= Z.max 10 (Z.min 50 top_kw) <= 50.
Proof.
  unfold keywords_or_fallback, extract_keywords_from_reviews, most_common.
  set (n := Z.max 10 (Z.min 50 top_kw)). assert (Hn : 10 <= n <= 50) by lia.
  replace (n <=? 0) with false by lia.
  destruct (is_nil _).
  - destruct (theme_counts filtered []) as [counts | e]; [ | discriminate ].
    cbn [bind]. intros [= <-]. rewrite length_take. lia.
  - intros [= <-]. rewrite length_take. lia.
Qed.

Lemma keyword_block_is_clamped_witness :
  Z.of_nat (length [("great", 1); ("glasses", 1)])
    <= Z.max 10 (Z.min 50 3) <= 50.
Proof.
  apply (keyword_block_is_clamped [great_glasses] 3). vm_compute. reflexivity.
Defined.

(** ** Keywords after filtering, and the case of the text *)

Lemma filter_result_sublist responses out s t :
  _filter_responses responses s t = Ok out -> sublist out responses.
Proof.
  rewrite filter_responses_shape. unfold after_sentiment.
  assert (Hs : sublist match provided s with
                       | Some s' => List.filter (has_sentiment (canon s')) responses
                       | None => responses
                       end responses).
  { destruct (provided s); [ apply filter_sublist | reflexivity ]. }
  destruct (provided t) as [t' |].
  - intros H. apply filter_r_sublist in H as [H _]. now transitivity
      match provided s with
      | Some s' => List.filter (has_sentiment (canon s')) responses
      | None => responses
      end.
  - now intros [= <-].
Qed.

Lemma sublist_flat_map {A B} (f : A -> list B) (l1 l2 : list A) :
  sublist l1 l2 -> sublist (flat_map f l1) (flat_map f l2).
Proof.
  induction 1 as [| x l1 l2 _ IH | x l1 l2 _ IH]; cbn [flat_map].
  - constructor.
  - now apply sublist_app.
  - now apply sublist_inserts_l.
Qed.

Lemma occurrences_sublist w (l1 l2 : list string) :
  sublist l1 l2 -> occurrences w l1 <= occurrences w l2.
Proof.
  unfold occurrences. induction 1 as [| x l1 l2 _ IH | x l1 l2 _ IH]; cbn [count_occ].
  - lia.
  - destruct (string_dec x w); lia.
  - destruct (string_dec x w); lia.
Qed.

(** X24.  Filtering first never raises a count: a word occurs among the qualifying
    words of the filtered records at most as often as among those of all
    records. *)
Theorem filtering_never_adds_occurrences (responses out : list value)
    (s t : option string) (w : string) :
  _filter_responses responses s t = Ok out ->
  occurrences w (all_words out) <= occurrences w (all_words responses).
Proof.
  intros H. apply occurrences_sublist. unfold all_words.
  apply sublist_flat_map. exact (filter_result_sublist _ _ _ _ H).
Qed.

Lemma filtering_never_adds_occurrences_witness :
  occurrences "glasses" (all_words [great_glasses])
    <= occurrences "glasses" (all_words [Atom (AInt 5); great_glasses; battery_complaint]).
Proof.
  apply (filtering_never_adds_occurrences [Atom (AInt 5); great_glasses; battery_complaint]
           [great_glasses] (Some "positive") None "glasses").
  reflexivity.
Defined.

















